(** * Pending-job reconciliation of [common/schedulers/slurm_commands.py]

    A shallow embedding of the node-requirement reconciliation
    ([_recompute_required_nodes_by_slots_reservation],
    [_recompute_required_nodes_by_gpu_reservation]), of the filter loop of
    [get_pending_jobs_info], of [transform_tres_to_dict] and of
    [SlurmJob.reformat_table].

    Python integers are unbounded and are modelled by [Z].  Python's [%] on
    integers rounds towards minus infinity, as [Z.modulo] does, and raises
    [ZeroDivisionError] on a zero divisor.

    The source takes its ceilings and one floor through doubles:
    [int(math.ceil(float(a) / b))] and [float(a) // b].  A double holds every
    integer of magnitude below 2^53 exactly; for operands on that range the
    quotient is correctly rounded, the ceiling of the rounded quotient is
    the ceiling of the exact one, and the floor division is exact.  The
    arithmetic of the model, [py_ceil_div] and [py_floordiv], is the exact
    one: it is the arithmetic of the source on that range, which
    [float_exact] names.  Beyond it the source rounds, and from about 2^1024
    [float] raises [OverflowError]; the model does not follow it there.  A
    theorem that depends on a computed quotient, or on which exception is
    raised, therefore states the range of its operands
    ([slots_in_float_range], [gpu_in_float_range]); a theorem without that
    hypothesis holds whatever the divisions return or raise. *)

From stdpp Require Import base option list gmap strings.
From Stdlib Require Import ZArith Lia Ascii String.

Local Open Scope Z_scope.

(** ** Exceptions and Python arithmetic *)

Inductive exn : Type :=
| ZeroDivisionError
| ValueError.

#[global] Instance exn_eq_dec : EqDecision exn.
Proof. solve_decision. Defined.

(** The outcome of an expression: a value, or the exception it raised. *)
Definition result (A : Type) : Type := exn + A.

Definition Ok {A} (a : A) : result A := inr a.
Definition Raise {A} (e : exn) : result A := inl e.

(** [a % b] on integers. *)
Definition py_mod (a b : Z) : result Z :=
  if b =? 0 then Raise ZeroDivisionError else Ok (a mod b).

(** [float(a) // b] for operands that doubles hold exactly: the floor of
    the quotient. *)
Definition py_floordiv (a b : Z) : result Z :=
  if b =? 0 then Raise ZeroDivisionError else Ok (a / b).

(** The ceiling of the rational [a / b], for [b] not zero. *)
Definition ceil_quot (a b : Z) : Z := - ((- a) / b).

(** [int(math.ceil(float(a) / b))] for operands that doubles hold
    exactly. *)
Definition py_ceil_div (a b : Z) : result Z :=
  if b =? 0 then Raise ZeroDivisionError else Ok (ceil_quot a b).

(** Truth value of an integer, and of an optional integer argument whose
    default is [None]. *)
Definition truthy (n : Z) : bool := negb (n =? 0).

Definition truthy_opt (o : option Z) : bool :=
  match o with
  | Some n => truthy n
  | None => false
  end.

(** ** Job records *)

Record SlurmJob : Type := mkSlurmJob {
  id : string;
  state : string;
  nodes : Z;
  cpus_total : Z;
  tasks : Z;
  cpus_per_task : Z;
  cpus_min_per_node : Z;
  pending_reason : string;
  tres_per_job : gmap string Z;
  tres_per_task : gmap string Z;
  tres_per_node : gmap string Z
}.

(** [job.nodes = n] *)
Definition set_nodes (job : SlurmJob) (n : Z) : SlurmJob :=
  mkSlurmJob (id job) (state job) n (cpus_total job) (tasks job)
    (cpus_per_task job) (cpus_min_per_node job) (pending_reason job)
    (tres_per_job job) (tres_per_task job) (tres_per_node job).

(** [job.cpus_total = c] *)
Definition set_cpus_total (job : SlurmJob) (c : Z) : SlurmJob :=
  mkSlurmJob (id job) (state job) (nodes job) c (tasks job)
    (cpus_per_task job) (cpus_min_per_node job) (pending_reason job)
    (tres_per_job job) (tres_per_task job) (tres_per_node job).

(** ** Loops that mutate the jobs in place

    The body of a loop leaves the job in some state and either completes or
    raises.  The job objects of a list are distinct (one is built per row of
    the scheduler's table), so the list of their states is the whole store:
    when the body raises at one job, the jobs before it keep their updates,
    the job itself keeps what was assigned before the exception, and the jobs
    after it are untouched. *)

Definition outcome (A : Type) : Type := (A * option exn)%type.

Fixpoint for_each_job (body : SlurmJob -> outcome SlurmJob)
    (pending_jobs : list SlurmJob) : outcome (list SlurmJob) :=
  match pending_jobs with
  | [] => ([], None)
  | job :: rest =>
      match body job with
      | (job', Some e) => (job' :: rest, Some e)
      | (job', None) =>
          let (rest', r) := for_each_job body rest in (job' :: rest', r)
      end
  end.

(** ** Pass 1: required nodes by slots reservation *)

Definition slots_reservation_body (node_slots : Z) (job : SlurmJob)
    : outcome SlurmJob :=
  if node_slots >=? cpus_min_per_node job then
    match py_mod node_slots (cpus_min_per_node job) with
    | inl e => (job, Some e)
    | inr r =>
        let usable_slots_per_node := node_slots - r in
        match py_ceil_div (cpus_total job) usable_slots_per_node with
        | inl e => (job, Some e)
        | inr required_nodes =>
            (set_nodes job (Z.max required_nodes (nodes job)), None)
        end
    end
  else (job, None).

Definition _recompute_required_nodes_by_slots_reservation
    (pending_jobs : list SlurmJob) (node_slots : Z) : outcome (list SlurmJob) :=
  for_each_job (slots_reservation_body node_slots) pending_jobs.

(** ** Pass 2: required nodes by GPU reservation *)

(** The block both sub-cases end with: raise [nodes] to [new_min_nodes] when
    that is larger, and then lift [cpus_total] to [nodes * cpus_min_per_node]
    when it is below. *)
Definition raise_min_nodes (new_min_nodes : Z) (job : SlurmJob) : SlurmJob :=
  if new_min_nodes >? nodes job then
    let job1 := set_nodes job new_min_nodes in
    if cpus_total job1 <? nodes job1 * cpus_min_per_node job1 then
      set_cpus_total job1 (nodes job1 * cpus_min_per_node job1)
    else job1
  else job.

(** [d.get("gpu")] followed by the test [if g:]: an entry that is absent or
    zero is not processed. *)
Definition gpu_request (d : gmap string Z) : option Z :=
  match d !! "gpu"%string with
  | Some g => if truthy g then Some g else None
  | None => None
  end.

Definition gpus_per_job_case (gpus_per_node : Z) (job : SlurmJob)
    : outcome SlurmJob :=
  match gpu_request (tres_per_job job) with
  | Some gpus_per_job =>
      match py_ceil_div gpus_per_job gpus_per_node with
      | inl e => (job, Some e)
      | inr new_min_nodes => (raise_min_nodes new_min_nodes job, None)
      end
  | None => (job, None)
  end.

Definition gpus_per_task_case (gpus_per_node : Z) (job : SlurmJob)
    : outcome SlurmJob :=
  match gpu_request (tres_per_task job) with
  | Some gpus_per_task =>
      match py_floordiv gpus_per_node gpus_per_task with
      | inl e => (job, Some e)
      | inr tasks_schedulable_per_node =>
          match py_ceil_div (tasks job) tasks_schedulable_per_node with
          | inl e => (job, Some e)
          | inr new_min_nodes => (raise_min_nodes new_min_nodes job, None)
          end
      end
  | None => (job, None)
  end.

Definition gpu_reservation_body (gpus_per_node : Z) (job : SlurmJob)
    : outcome SlurmJob :=
  match gpus_per_job_case gpus_per_node job with
  | (job1, Some e) => (job1, Some e)
  | (job1, None) => gpus_per_task_case gpus_per_node job1
  end.

Definition _recompute_required_nodes_by_gpu_reservation
    (pending_jobs : list SlurmJob) (gpus_per_node : Z)
    : outcome (list SlurmJob) :=
  if gpus_per_node <=? 0 then (pending_jobs, None)
  else for_each_job (gpu_reservation_body gpus_per_node) pending_jobs.

(** ** The range on which doubles are exact *)

(** An integer that a double holds exactly and that divides without a
    rounding that a ceiling or a floor could see. *)
Definition float_exact (n : Z) : Prop := - 2 ^ 53 < n < 2 ^ 53.

(** The operands of the division of Pass 1 on a job: [cpus_total] and
    [usable_slots_per_node]. *)
Definition slots_in_float_range (node_slots : Z) (job : SlurmJob) : Prop :=
  float_exact (cpus_total job)
  /\ float_exact (node_slots - node_slots mod cpus_min_per_node job).

(** The operands of the divisions of Pass 2 on a job: [gpus_per_node],
    [tasks] and the two "gpu" entries. *)
Definition gpu_in_float_range (gpus_per_node : Z) (job : SlurmJob) : Prop :=
  float_exact gpus_per_node
  /\ float_exact (tasks job)
  /\ (forall g, tres_per_job job !! "gpu"%string = Some g -> float_exact g)
  /\ (forall g, tres_per_task job !! "gpu"%string = Some g -> float_exact g).

(** ** The filter loop and [get_pending_jobs_info] *)

(** Truth value of the optional list [filter_by_pending_reasons]. *)
Definition truthy_reasons (o : option (list string)) : bool :=
  match o with
  | Some (_ :: _) => true
  | _ => false
  end.

(** The [if]/[elif] chain of the loop: [true] when the job reaches the
    [else] branch and is appended. *)
Definition job_is_kept (max_slots_filter max_nodes_filter : option Z)
    (filter_by_pending_reasons : option (list string)) (job : SlurmJob) : bool :=
  if truthy_opt max_slots_filter
     && (cpus_min_per_node job >? default 0 max_slots_filter) then false
  else if truthy_opt max_nodes_filter
     && (nodes job >? default 0 max_nodes_filter) then false
  else if truthy_reasons filter_by_pending_reasons
     && negb (bool_decide
                (pending_reason job ∈ default [] filter_by_pending_reasons))
  then false
  else true.

(** [for job in pending_jobs: ... filtered_jobs.append(job)] *)
Fixpoint filter_loop (max_slots_filter max_nodes_filter : option Z)
    (filter_by_pending_reasons : option (list string))
    (pending_jobs filtered_jobs : list SlurmJob) : list SlurmJob :=
  match pending_jobs with
  | [] => filtered_jobs
  | job :: rest =>
      filter_loop max_slots_filter max_nodes_filter filter_by_pending_reasons
        rest
        (if job_is_kept max_slots_filter max_nodes_filter
              filter_by_pending_reasons job
         then filtered_jobs ++ [job] else filtered_jobs)
  end.

(** Lines 81 to 105: the part of [get_pending_jobs_info] after the
    reconciliation. *)
Definition filter_pending_jobs (max_slots_filter max_nodes_filter : option Z)
    (filter_by_pending_reasons : option (list string))
    (pending_jobs : list SlurmJob) : list SlurmJob :=
  if truthy_opt max_slots_filter || truthy_reasons filter_by_pending_reasons
     || truthy_opt max_nodes_filter
  then filter_loop max_slots_filter max_nodes_filter filter_by_pending_reasons
         pending_jobs []
  else pending_jobs.

(** Lines 78 to 80: both recomputations sit under [if max_slots_filter:]. *)
Definition recompute_required_nodes (max_slots_filter : option Z)
    (max_gpus_per_node : Z) (pending_jobs : list SlurmJob)
    : outcome (list SlurmJob) :=
  if truthy_opt max_slots_filter then
    match _recompute_required_nodes_by_slots_reservation pending_jobs
            (default 0 max_slots_filter) with
    | (jobs1, Some e) => (jobs1, Some e)
    | (jobs1, None) =>
        _recompute_required_nodes_by_gpu_reservation jobs1 max_gpus_per_node
    end
  else (pending_jobs, None).

(** [get_pending_jobs_info], as a function of the list that
    [get_jobs_info(job_state_filter="PD")] returned.  An exception of the
    recomputation leaves the function before the filter. *)
Definition get_pending_jobs_info (max_slots_filter max_nodes_filter : option Z)
    (filter_by_pending_reasons : option (list string))
    (max_gpus_per_node : Z) (pending_jobs : list SlurmJob)
    : result (list SlurmJob) :=
  match recompute_required_nodes max_slots_filter max_gpus_per_node
          pending_jobs with
  | (_, Some e) => Raise e
  | (jobs, None) =>
      Ok (filter_pending_jobs max_slots_filter max_nodes_filter
            filter_by_pending_reasons jobs)
  end.

(** ** [transform_tres_to_dict] *)

(** [s.split(sep)] for a separator of one character: never the empty list. *)
Fixpoint split_on (sep : ascii) (s : string) : list string :=
  match s with
  | EmptyString => [EmptyString]
  | String c rest =>
      if Ascii.eqb c sep then EmptyString :: split_on sep rest
      else match split_on sep rest with
           | [] => [String c EmptyString]
           | piece :: pieces => String c piece :: pieces
           end
  end.

Section Tres.

(** The builtin [int] on text: [Some n] for the literals it accepts,
    [None] where it raises [ValueError]. *)
Variable int_of_str : string -> option Z.

(** [resource, value = tres.split(":")] and [int(value)]: unpacking needs
    exactly two pieces. *)
Definition parse_tres (tres : string) : result (string * Z) :=
  match split_on ":" tres with
  | [resource; value] =>
      match int_of_str value with
      | Some n => Ok (resource, n)
      | None => Raise ValueError
      end
  | _ => Raise ValueError
  end.

(** The loop over [value.split(",")], filling [tres_dict]. *)
Fixpoint tres_loop (pieces : list string) (tres_dict : gmap string Z)
    : result (gmap string Z) :=
  match pieces with
  | [] => Ok tres_dict
  | tres :: rest =>
      match parse_tres tres with
      | inl e => Raise e
      | inr (resource, n) => tres_loop rest (<[resource := n]> tres_dict)
      end
  end.

Definition transform_tres_to_dict (value : string)
    : result (gmap string Z) :=
  if String.eqb value "N/A" then Ok ∅
  else tres_loop (split_on "," value) ∅.

End Tres.

(** An instance of [int] for the plain literals of the scheduler's output:
    an optional sign and decimal digits. *)
Definition digit_value (c : ascii) : option Z :=
  let n := Z.of_N (Ascii.N_of_ascii c) in
  if (48 <=? n) && (n <=? 57) then Some (n - 48) else None.

Fixpoint digits_value (s : string) (acc : Z) : option Z :=
  match s with
  | EmptyString => Some acc
  | String c rest =>
      match digit_value c with
      | Some d => digits_value rest (10 * acc + d)
      | None => None
      end
  end.

Definition decimal_int (s : string) : option Z :=
  match s with
  | EmptyString => None
  | String "-" (String _ _ as ds) => Z.opp <$> digits_value ds 0
  | String "+" (String _ _ as ds) => digits_value ds 0
  | _ => digits_value s 0
  end.

(** ** The specification's formulas

    These definitions follow the words of the specification; the theorems
    below compare them with the functions above. *)

(** Pass 1: the slots of a node that tasks of [cpus_min_per_node] CPUs can
    fill, and the job with its node count reconciled. *)
Definition spec_usable_slots (node_slots : Z) (job : SlurmJob) : Z :=
  node_slots - node_slots mod cpus_min_per_node job.

Definition spec_slots_reconciled (node_slots : Z) (job : SlurmJob)
    : SlurmJob :=
  set_nodes job
    (Z.max (ceil_quot (cpus_total job) (spec_usable_slots node_slots job))
           (nodes job)).

(** Pass 2, per-job request: [ceil(g / gpusPerNode)]; without a request the
    node count stands. *)
Definition spec_min_nodes_per_job (gpus_per_node : Z) (job : SlurmJob) : Z :=
  match gpu_request (tres_per_job job) with
  | Some g => ceil_quot g gpus_per_node
  | None => nodes job
  end.

(** Pass 2, per-task request: [ceil(tasks / floor(gpusPerNode / g))]. *)
Definition spec_min_nodes_per_task (gpus_per_node : Z) (job : SlurmJob) : Z :=
  match gpu_request (tres_per_task job) with
  | Some g => ceil_quot (tasks job) (gpus_per_node / g)
  | None => nodes job
  end.

(** The CPU floor after a raise of [nodes] from [before] to [n]: the total
    is lifted to [n * cpus_min_per_node] when it is below. *)
Definition spec_cpu_floor (before n cpus cpus_min : Z) : Z :=
  if before <? n then Z.max cpus (n * cpus_min) else cpus.

(** Both corrections applied, the maximum effect taken. *)
Definition spec_gpu_reconciled (gpus_per_node : Z) (job job' : SlurmJob)
    : Prop :=
  let n1 := spec_min_nodes_per_job gpus_per_node job in
  let n2 := spec_min_nodes_per_task gpus_per_node job in
  nodes job' = Z.max (nodes job) (Z.max n1 n2)
  /\ cpus_total job'
     = spec_cpu_floor (Z.max (nodes job) n1) n2
         (spec_cpu_floor (nodes job) n1 (cpus_total job)
            (cpus_min_per_node job))
         (cpus_min_per_node job)
  /\ set_cpus_total (set_nodes job' (nodes job)) (cpus_total job) = job.

(** What one job gains from Pass 2: [nodes] and [cpus_total] never go down,
    nothing else changes, and a raise of [nodes] comes with the CPU floor. *)
Definition gpu_step (job job' : SlurmJob) : Prop :=
  nodes job <= nodes job'
  /\ cpus_total job <= cpus_total job'
  /\ cpus_min_per_node job' = cpus_min_per_node job
  /\ (nodes job < nodes job' ->
      nodes job' * cpus_min_per_node job' <= cpus_total job').

(** What one job gains from Pass 1: [nodes] alone is assigned, never a
    smaller value. *)
Definition slots_step (job job' : SlurmJob) : Prop :=
  exists n, nodes job <= n /\ job' = set_nodes job n.

(** The store between the two passes of [get_pending_jobs_info]. *)
Definition after_slots_reservation (max_slots_filter : option Z)
    (pending_jobs : list SlurmJob) : list SlurmJob :=
  if truthy_opt max_slots_filter then
    fst (_recompute_required_nodes_by_slots_reservation pending_jobs
           (default 0 max_slots_filter))
  else pending_jobs.

(** The invariants the data model states for a reconciled job: at least
    one node, and the CPU floor where [nodes] was raised. *)
Definition spec_reconciled (job job' : SlurmJob) : Prop :=
  1 <= nodes job'
  /\ (nodes job < nodes job' ->
      nodes job' * cpus_min_per_node job' <= cpus_total job').

(** "Pass 2 is controlled by [gpusPerNode] alone": the jobs that leave the
    reconciliation are those Pass 2 makes of the jobs that entered it. *)
Definition spec_gpu_pass_applied (max_slots_filter : option Z)
    (max_gpus_per_node : Z) (pending_jobs : list SlurmJob) : Prop :=
  recompute_required_nodes max_slots_filter max_gpus_per_node pending_jobs
  = _recompute_required_nodes_by_gpu_reservation
      (after_slots_reservation max_slots_filter pending_jobs)
      max_gpus_per_node.

(** The filter: every supplied constraint holds of the job. *)
Definition spec_constraints_hold (max_slots_filter max_nodes_filter : option Z)
    (allowed_pending_reasons : option (list string)) (job : SlurmJob) : Prop :=
  match max_slots_filter with
  | Some m => cpus_min_per_node job <= m
  | None => True
  end
  /\ match max_nodes_filter with
     | Some m => nodes job <= m
     | None => True
     end
  /\ match allowed_pending_reasons with
     | Some (r :: rs) => pending_reason job ∈ r :: rs
     | _ => True
     end.

#[global] Instance spec_constraints_hold_dec msf mnf reasons job :
  Decision (spec_constraints_hold msf mnf reasons job).
Proof.
  unfold spec_constraints_hold.
  destruct msf, mnf, reasons as [[|? ?]|]; apply _.
Defined.

(** A token of the form [name:integer]: one colon, and [int] accepts what
    follows it. *)
Definition spec_token (int_of_str : string -> option Z) (tres : string)
    (resource : string) (n : Z) : Prop :=
  exists value : string,
    tres = (resource ++ ":" ++ value)%string
    /\ (":"%char ∉ list_ascii_of_string resource)
    /\ (":"%char ∉ list_ascii_of_string value)
    /\ int_of_str value = Some n.

(** [sep.join(pieces)] for a separator of one character. *)
Fixpoint join_with (sep : ascii) (pieces : list string) : string :=
  match pieces with
  | [] => EmptyString
  | piece :: rest =>
      match rest with
      | [] => piece
      | _ :: _ => (piece ++ String sep (join_with sep rest))%string
      end
  end.

(** The mapping a sequence of [name:integer] tokens denotes: each name
    with its count, a later token replacing an earlier one of its name. *)
Definition spec_tres_mapping (entries : list (string * Z)) : gmap string Z :=
  list_to_map (reverse entries).

(** ** Jobs of the examples *)

Local Open Scope string_scope.

(** [sbatch -c 3 -n 5] on nodes of 4 slots, reported with one node. *)
Definition job_slots : SlurmJob :=
  mkSlurmJob "91" "PD" 1 15 5 3 3 "Resources" ∅ ∅ ∅.

(** A job built with the constructor's default [cpus_min_per_node=0]. *)
Definition job_no_min_cpus : SlurmJob :=
  mkSlurmJob "93" "PD" 1 1 0 0 0 "Resources" ∅ ∅ ∅.

(** Four tasks of one CPU each, with at least three CPUs on a node. *)
Definition job_uneven : SlurmJob :=
  mkSlurmJob "94" "PD" 1 4 4 1 3 "Resources" ∅ ∅ ∅.

(** [sbatch --gpus=12] *)
Definition job_gpus : SlurmJob :=
  mkSlurmJob "79" "PD" 1 1 1 1 1 "Resources" {["gpu" := 12]} ∅ ∅.

(** [sbatch --gpus-per-task=2 -n 3] *)
Definition job_gpus_per_task : SlurmJob :=
  mkSlurmJob "92" "PD" 1 3 3 1 1 "Resources" ∅ {["gpu" := 2]} ∅.

(** Eight GPUs per task, more than a node of four has. *)
Definition job_gpus_per_task_8 : SlurmJob :=
  mkSlurmJob "95" "PD" 1 3 3 1 1 "Resources" ∅ {["gpu" := 8]} ∅.

(** Both requests at once. *)
Definition job_gpus_both : SlurmJob :=
  mkSlurmJob "96" "PD" 1 2 9 1 2 "Priority"
    {["gpu" := 12]} {["gpu" := 2]} {["gpu" := 1]}.

(** A job that needs five slots on a node. *)
Definition job_5_slots : SlurmJob :=
  mkSlurmJob "97" "PD" 1 5 1 5 5 "Resources" ∅ ∅ ∅.

Local Close Scope string_scope.

(** ** More relations and jobs of examples *)

(** A job as a reconciliation leaves it: [nodes] and [cpus_total] are the
    only fields that may differ from the reported ones, and neither is
    lower. *)
Definition reconciled_from (job job' : SlurmJob) : Prop :=
  set_cpus_total (set_nodes job' (nodes job)) (cpus_total job) = job
  /\ nodes job <= nodes job'
  /\ cpus_total job <= cpus_total job'.

(** A per-task request that a node of [gpus_per_node] GPUs can serve. *)
Definition gpus_per_task_fit (gpus_per_node : Z) (job : SlurmJob) : Prop :=
  forall g, tres_per_task job !! "gpu"%string = Some g -> g <= gpus_per_node.

(** A "gpu" entry of zero per job, another resource per task, GPUs per
    node. *)
Definition job_no_gpu_request : SlurmJob :=
  mkSlurmJob "98" "PD" 1 1 1 1 1 "Resources"
    {["gpu"%string := 0]} {["mic"%string := 2]} {["gpu"%string := 8]}.

(** One node reported for five; the reason is not one of resources. *)
Definition job_licenses : SlurmJob :=
  mkSlurmJob "99" "PD" 1 6 6 1 1 "Licenses" ∅ ∅ ∅.

(** ** Requests written back as text *)

(** The text [name:literal] of one request, and the comma-separated text of
    a sequence of them, as the scheduler prints a TRES column. *)
Definition tres_token (entry : string * string) : string :=
  (entry.1 ++ ":" ++ entry.2)%string.

Definition tres_text (entries : list (string * string)) : string :=
  join_with "," (map tres_token entries).

(** ** [SlurmJob.reformat_table] *)

Definition SQUEUE_FIELD_SIZE : Z := 200.

Section Table.

(** [str.splitlines] and [textwrap.wrap] of the standard library. *)
Variable splitlines : string -> list string.
Variable wrap : string -> Z -> list string.

(** A line of the compressed table: the chunks of a row, joined by a bar. *)
Definition reformat_line (line : string) : string :=
  join_with "|" (wrap line SQUEUE_FIELD_SIZE).

(** [for i in range(0, len(lines)): lines[i] = ...], over the indices still
    to visit; [None] is the [IndexError] of a subscript out of range. *)
Fixpoint reformat_lines (indices : list nat) (lines : list string)
    : option (list string) :=
  match indices with
  | [] => Some lines
  | i :: rest =>
      match lines !! i with
      | Some line => reformat_lines rest (<[i := reformat_line line]> lines)
      | None => None
      end
  end.

Definition reformat_table (table : string) : option string :=
  let lines := splitlines table in
  match reformat_lines (seq 0 (List.length lines)) lines with
  | Some lines' => Some (join_with "010" lines')
  | None => None
  end.

End Table.

(** The table of an example, as [squeue -O] prints it: every field
    followed by blanks up to the width of its column. *)
Fixpoint blanks (n : nat) : string :=
  match n with
  | O => EmptyString
  | S n' => String " " (blanks n')
  end.

Definition pad_field (field : string) : string :=
  String.append field
    (blanks (Z.to_nat SQUEUE_FIELD_SIZE - String.length field)).

Definition squeue_table : string :=
  String.append (pad_field "JOBID")
    (String.append (pad_field "ST")
       (String "010"
          (String.append (pad_field "72") (pad_field "PD")))).

(** Two instances of the library functions for that example.  On a text
    without a final line feed [str.splitlines] cuts at the line feeds.  On
    a line of fields that hold no blank, are not empty and are padded with
    blanks to the width, [textwrap.wrap] returns the fields: a field and
    its blanks fill a line of the width exactly, and the blanks at the end
    of a line are dropped.  [fields_of_width] cuts the line into blocks of
    the width and drops the blanks at the end of each. *)
Definition lines_at_line_feeds (table : string) : list string :=
  split_on "010" table.

Fixpoint drop_final_blanks (s : string) : string :=
  match s with
  | EmptyString => EmptyString
  | String c rest =>
      match drop_final_blanks rest with
      | EmptyString => if Ascii.eqb c " " then EmptyString
                       else String c EmptyString
      | kept => String c kept
      end
  end.

Fixpoint blocks_of_width (fuel width : nat) (s : string) : list string :=
  match fuel with
  | O => []
  | S fuel' =>
      match s with
      | EmptyString => []
      | _ => String.substring 0 width s
             :: blocks_of_width fuel' width
                  (String.substring width (String.length s - width) s)
      end
  end.

Definition fields_of_width (line : string) (width : Z) : list string :=
  map drop_final_blanks
    (blocks_of_width (String.length line) (Z.to_nat width) line).

(** * Properties *)

(** ** Ceiling of a quotient *)

Lemma ceil_quot_bounds (a b : Z) :
  0 < b -> b * (ceil_quot a b - 1) < a <= b * ceil_quot a b.
Proof.
  intros Hb. unfold ceil_quot.
  pose proof (Z.div_mod (- a) b ltac:(lia)) as Hdm.
  pose proof (Z.mod_pos_bound (- a) b Hb) as Hm.
  nia.
Qed.

Lemma ceil_quot_unique (a b q : Z) :
  0 < b -> b * (q - 1) < a <= b * q -> ceil_quot a b = q.
Proof.
  intros Hb Hq. pose proof (ceil_quot_bounds a b Hb) as Hc. nia.
Qed.

Lemma ceil_quot_opp (a b : Z) : ceil_quot (- a) (- b) = ceil_quot a b.
Proof.
  unfold ceil_quot. destruct (decide (b = 0)) as [->|Hb].
  - now rewrite !Z.div_0_r.
  - rewrite Z.opp_involutive. f_equal.
    rewrite <- (Z.opp_involutive a) at 1. now rewrite Z.div_opp_opp by lia.
Qed.

Lemma py_ceil_div_nonzero (a b : Z) :
  b <> 0 -> py_ceil_div a b = Ok (ceil_quot a b).
Proof.
  intros Hb. unfold py_ceil_div. now rewrite (proj2 (Z.eqb_neq b 0) Hb).
Qed.

Lemma py_ceil_div_zero (a : Z) : py_ceil_div a 0 = Raise ZeroDivisionError.
Proof. reflexivity. Qed.

(** The slots a node can fill with tasks of [c] CPUs each. *)
Lemma usable_slots_positive (node_slots c : Z) :
  0 < c -> c <= node_slots -> c <= node_slots - node_slots mod c.
Proof.
  intros Hc Hle.
  pose proof (Z.div_mod node_slots c ltac:(lia)) as Hdm.
  pose proof (Z.mod_pos_bound node_slots c Hc) as Hm.
  assert (1 <= node_slots / c) by (apply Z.div_le_lower_bound; lia).
  nia.
Qed.

(** ** The loop over the jobs *)

Section ForEach.

Variable body : SlurmJob -> outcome SlurmJob.

(** A relation that the body establishes between the states of a job
    before and after, and that holds of an untouched job, relates the two
    stores pointwise, whether or not the loop raised. *)
Lemma for_each_job_related (R : SlurmJob -> SlurmJob -> Prop) :
  (forall job, R job job) ->
  (forall job, R job (fst (body job))) ->
  forall pending_jobs,
    Forall2 R pending_jobs (fst (for_each_job body pending_jobs)).
Proof.
  intros Hrefl Hbody pending_jobs.
  induction pending_jobs as [|job rest IH]; simpl.
  - constructor.
  - specialize (Hbody job).
    destruct (body job) as [job' [e|]]; simpl in *.
    + constructor; [assumption|]. apply Forall_Forall2_diag.
      apply Forall_forall. intros; apply Hrefl.
    + destruct (for_each_job body rest) as [rest' r]; simpl in *.
      now constructor.
Qed.

(** When the body completes on every job, so does the loop. *)
Lemma for_each_job_completes (pending_jobs : list SlurmJob) :
  Forall (fun job => snd (body job) = None) pending_jobs ->
  for_each_job body pending_jobs
  = (map (fun job => fst (body job)) pending_jobs, None).
Proof.
  induction 1 as [|job rest Hjob _ IH]; simpl; [reflexivity|].
  destruct (body job) as [job' r]; simpl in *; subst r.
  now rewrite IH.
Qed.

(** The loop raises as soon as the body raises on some job; which
    exception is the body's. *)
Lemma for_each_job_raises (e : exn) (pending_jobs : list SlurmJob) :
  (forall job e', snd (body job) = Some e' -> e' = e) ->
  Exists (fun job => snd (body job) = Some e) pending_jobs ->
  snd (for_each_job body pending_jobs) = Some e.
Proof.
  intros Honly Hex.
  induction pending_jobs as [|job rest IH]; [inversion Hex|].
  simpl. destruct (body job) as [job' [e'|]] eqn:Hb; simpl.
  - f_equal. apply (Honly job). now rewrite Hb.
  - destruct (for_each_job body rest) as [rest' r]; simpl in *.
    apply IH. inversion Hex as [? ? Hhd|? ? Htl]; subst; [|assumption].
    rewrite Hb in Hhd. discriminate.
Qed.

End ForEach.

(** ** Pass 1 *)

(** A job that asks for more slots than a node has is skipped. *)
Lemma slots_reservation_body_skip (node_slots : Z) (job : SlurmJob) :
  node_slots < cpus_min_per_node job ->
  slots_reservation_body node_slots job = (job, None).
Proof.
  intros Hlt. unfold slots_reservation_body.
  destruct (Z.geb_spec node_slots (cpus_min_per_node job)); [lia|reflexivity].
Qed.

(** With [cpus_min_per_node = 0] the guard lets the job through and the
    modulo raises. *)
Lemma slots_reservation_body_zero (node_slots : Z) (job : SlurmJob) :
  cpus_min_per_node job = 0 -> 0 <= node_slots ->
  slots_reservation_body node_slots job = (job, Some ZeroDivisionError).
Proof.
  intros Hz Hns. unfold slots_reservation_body. rewrite Hz.
  destruct (Z.geb_spec node_slots 0); [reflexivity|lia].
Qed.

Lemma slots_reservation_body_fits (node_slots : Z) (job : SlurmJob) :
  0 < cpus_min_per_node job -> cpus_min_per_node job <= node_slots ->
  slots_reservation_body node_slots job
  = (set_nodes job
       (Z.max (ceil_quot (cpus_total job)
                 (node_slots - node_slots mod cpus_min_per_node job))
              (nodes job)), None).
Proof.
  intros Hpos Hle. unfold slots_reservation_body.
  destruct (Z.geb_spec node_slots (cpus_min_per_node job)); [|lia].
  unfold py_mod. rewrite (proj2 (Z.eqb_neq _ 0)) by lia. simpl.
  pose proof (usable_slots_positive node_slots _ Hpos Hle).
  now rewrite py_ceil_div_nonzero by lia.
Qed.

(** Pass 1 assigns [nodes] only, and never a smaller value. *)
Lemma slots_reservation_body_frame (node_slots : Z) (job : SlurmJob) :
  exists n, nodes job <= n
    /\ fst (slots_reservation_body node_slots job) = set_nodes job n.
Proof.
  unfold slots_reservation_body.
  assert (Hid : set_nodes job (nodes job) = job) by now destruct job.
  destruct (node_slots >=? cpus_min_per_node job);
    [|exists (nodes job); now split].
  destruct (py_mod _ _) as [e|r]; [exists (nodes job); now split|].
  destruct (py_ceil_div _ _) as [e|q]; [exists (nodes job); now split|].
  exists (Z.max q (nodes job)). split; [lia|reflexivity].
Qed.

(** [ZeroDivisionError] is the only exception of the two passes. *)
Lemma slots_reservation_body_exn (node_slots : Z) (job : SlurmJob) (e : exn) :
  snd (slots_reservation_body node_slots job) = Some e ->
  e = ZeroDivisionError.
Proof.
  unfold slots_reservation_body, py_mod, py_ceil_div.
  repeat (case_match; simpl); unfold Raise, Ok in *; congruence.
Qed.

(** ** Pass 2 *)

Lemma raise_min_nodes_nodes (n : Z) (job : SlurmJob) :
  nodes (raise_min_nodes n job) = Z.max (nodes job) n.
Proof.
  unfold raise_min_nodes.
  destruct (Z.gtb_spec n (nodes job)); simpl; [|lia].
  destruct (_ <? _); simpl; lia.
Qed.

Lemma raise_min_nodes_cpus_total (n : Z) (job : SlurmJob) :
  cpus_total (raise_min_nodes n job)
  = spec_cpu_floor (nodes job) n (cpus_total job) (cpus_min_per_node job).
Proof.
  unfold raise_min_nodes, spec_cpu_floor.
  destruct (Z.gtb_spec n (nodes job)), (Z.ltb_spec (nodes job) n);
    simpl; try lia.
  destruct (Z.ltb_spec (cpus_total job) (n * cpus_min_per_node job));
    simpl; lia.
Qed.

Lemma raise_min_nodes_frame (n : Z) (job : SlurmJob) :
  set_cpus_total (set_nodes (raise_min_nodes n job) (nodes job))
    (cpus_total job) = job
  /\ cpus_min_per_node (raise_min_nodes n job) = cpus_min_per_node job.
Proof.
  unfold raise_min_nodes. destruct job; simpl.
  repeat (case_match; simpl); auto.
Qed.

(** After a raise the CPU total covers the new node count. *)
Lemma raise_min_nodes_floor (n : Z) (job : SlurmJob) :
  nodes job < nodes (raise_min_nodes n job) ->
  nodes (raise_min_nodes n job) * cpus_min_per_node job
  <= cpus_total (raise_min_nodes n job).
Proof.
  rewrite raise_min_nodes_nodes, raise_min_nodes_cpus_total.
  unfold spec_cpu_floor. intros Hlt.
  destruct (Z.ltb_spec (nodes job) n); [|lia].
  replace (Z.max (nodes job) n) with n by lia. lia.
Qed.

Lemma raise_min_nodes_same (job : SlurmJob) :
  raise_min_nodes (nodes job) job = job.
Proof.
  unfold raise_min_nodes.
  destruct (Z.gtb_spec (nodes job) (nodes job)); [lia|reflexivity].
Qed.

(** Whatever a sub-case of Pass 2 does to a job, it does through the
    raise-and-floor block. *)
Lemma gpus_per_job_case_raise (gpus_per_node : Z) (job : SlurmJob) :
  exists n, fst (gpus_per_job_case gpus_per_node job) = raise_min_nodes n job.
Proof.
  unfold gpus_per_job_case.
  destruct (gpu_request _) as [g|];
    [|exists (nodes job); now rewrite raise_min_nodes_same].
  destruct (py_ceil_div _ _) as [e|n]; simpl;
    [exists (nodes job); now rewrite raise_min_nodes_same|now exists n].
Qed.

Lemma gpus_per_task_case_raise (gpus_per_node : Z) (job : SlurmJob) :
  exists n, fst (gpus_per_task_case gpus_per_node job) = raise_min_nodes n job.
Proof.
  unfold gpus_per_task_case.
  destruct (gpu_request _) as [g|];
    [|exists (nodes job); now rewrite raise_min_nodes_same].
  destruct (py_floordiv _ _) as [e|k]; simpl;
    [exists (nodes job); now rewrite raise_min_nodes_same|].
  destruct (py_ceil_div _ _) as [e|n]; simpl;
    [exists (nodes job); now rewrite raise_min_nodes_same|now exists n].
Qed.

Lemma gpu_reservation_body_raise (gpus_per_node : Z) (job : SlurmJob) :
  exists n1 n2,
    fst (gpu_reservation_body gpus_per_node job)
    = raise_min_nodes n2 (raise_min_nodes n1 job).
Proof.
  unfold gpu_reservation_body.
  destruct (gpus_per_job_case_raise gpus_per_node job) as [n1 H1].
  destruct (gpus_per_job_case gpus_per_node job) as [job1 [e|]];
    simpl in H1; subst job1.
  - exists n1, (nodes (raise_min_nodes n1 job)).
    now rewrite raise_min_nodes_same.
  - destruct (gpus_per_task_case_raise gpus_per_node (raise_min_nodes n1 job))
      as [n2 H2].
    now exists n1, n2.
Qed.

Lemma gpu_step_refl (job : SlurmJob) : gpu_step job job.
Proof. unfold gpu_step. repeat split; lia. Qed.

Lemma raise_min_nodes_twice_step (n1 n2 : Z) (job : SlurmJob) :
  gpu_step job (raise_min_nodes n2 (raise_min_nodes n1 job)).
Proof.
  unfold gpu_step.
  destruct (raise_min_nodes_frame n1 job) as [_ Hc1].
  destruct (raise_min_nodes_frame n2 (raise_min_nodes n1 job)) as [_ Hc2].
  rewrite Hc2, Hc1, !raise_min_nodes_nodes, !raise_min_nodes_cpus_total.
  rewrite Hc1, raise_min_nodes_nodes.
  unfold spec_cpu_floor.
  repeat split; try lia;
    destruct (Z.ltb_spec (Z.max (nodes job) n1) n2),
             (Z.ltb_spec (nodes job) n1); try lia;
    intros _;
    first [ replace (Z.max (Z.max (nodes job) n1) n2) with n2 by lia
          | replace (Z.max (Z.max (nodes job) n1) n2) with n1 by lia ]; lia.
Qed.

Lemma gpu_reservation_body_step (gpus_per_node : Z) (job : SlurmJob) :
  gpu_step job (fst (gpu_reservation_body gpus_per_node job)).
Proof.
  destruct (gpu_reservation_body_raise gpus_per_node job) as (n1 & n2 & ->).
  apply raise_min_nodes_twice_step.
Qed.

Lemma gpu_reservation_step (pending_jobs : list SlurmJob) (gpus_per_node : Z) :
  Forall2 gpu_step pending_jobs
    (fst (_recompute_required_nodes_by_gpu_reservation pending_jobs
            gpus_per_node)).
Proof.
  unfold _recompute_required_nodes_by_gpu_reservation.
  destruct (gpus_per_node <=? 0); simpl.
  - apply Forall_Forall2_diag, Forall_forall. intros; apply gpu_step_refl.
  - apply for_each_job_related;
      auto using gpu_step_refl, gpu_reservation_body_step.
Qed.

Lemma gpu_reservation_body_exn (gpus_per_node : Z) (job : SlurmJob) (e : exn) :
  snd (gpu_reservation_body gpus_per_node job) = Some e ->
  e = ZeroDivisionError.
Proof.
  unfold gpu_reservation_body, gpus_per_job_case, gpus_per_task_case,
    py_floordiv, py_ceil_div.
  repeat (case_match; simpl); unfold Raise, Ok in *; congruence.
Qed.

(** ** Pass 1: the guard, the formula, monotonicity *)

(** C1.  The specification has Pass 1 skip a job whose
    [cpus_min_per_node] is zero, so that no division by zero can occur.  The
    loop tests [node_slots >= job.cpus_min_per_node] only: on nodes of four
    slots the first job is reconciled, the second, whose
    [cpus_min_per_node] is the constructor's default [0], passes the test and
    [node_slots % 0] raises [ZeroDivisionError]; the third job is never
    reached. *)
Theorem slots_reservation_zero_min_cpus_raises :
  _recompute_required_nodes_by_slots_reservation
    [job_slots; job_no_min_cpus; job_uneven] 4
  = ([set_nodes job_slots 5; job_no_min_cpus; job_uneven],
     Some ZeroDivisionError).
Proof. reflexivity. Qed.

(** Where every job asks for at least one CPU per node, Pass 1 completes. *)
Lemma slots_reservation_completes (pending_jobs : list SlurmJob)
    (node_slots : Z) :
  Forall (fun job => 0 < cpus_min_per_node job) pending_jobs ->
  snd (_recompute_required_nodes_by_slots_reservation pending_jobs node_slots)
  = None.
Proof.
  intros Hpos. unfold _recompute_required_nodes_by_slots_reservation.
  rewrite for_each_job_completes; [reflexivity|].
  eapply Forall_impl; [exact Hpos|]. intros job Hjob. simpl in Hjob.
  destruct (Z.lt_ge_cases node_slots (cpus_min_per_node job)).
  - now rewrite slots_reservation_body_skip.
  - now rewrite slots_reservation_body_fits.
Qed.

(** A loop that completes on the first jobs of a list goes on with the
    rest, and the jobs it leaves are as many as it was given. *)
Lemma for_each_job_app (body : SlurmJob -> outcome SlurmJob)
    (before rest : list SlurmJob) :
  snd (for_each_job body before) = None ->
  for_each_job body (before ++ rest)
  = (fst (for_each_job body before) ++ fst (for_each_job body rest),
     snd (for_each_job body rest)).
Proof.
  induction before as [|job before IH]; simpl.
  - intros _. now destruct (for_each_job body rest).
  - destruct (body job) as [job' [e|]]; simpl; [discriminate|].
    destruct (for_each_job body before) as [before' r]; simpl in *.
    intros ->. rewrite IH by reflexivity. reflexivity.
Qed.

Lemma for_each_job_length (body : SlurmJob -> outcome SlurmJob)
    (pending_jobs : list SlurmJob) :
  List.length (fst (for_each_job body pending_jobs))
  = List.length pending_jobs.
Proof.
  induction pending_jobs as [|job rest IH]; simpl; [reflexivity|].
  destruct (body job) as [job' [e|]]; simpl; [reflexivity|].
  destruct (for_each_job body rest) as [rest' r]; simpl in *.
  now rewrite IH.
Qed.

(** The job a loop leaves at the place of a job it reaches is what the
    body makes of that job. *)
Lemma for_each_job_reached (body : SlurmJob -> outcome SlurmJob)
    (before after : list SlurmJob) (job : SlurmJob) :
  snd (for_each_job body before) = None ->
  fst (for_each_job body (before ++ job :: after)) !! List.length before
  = Some (fst (body job)).
Proof.
  intros Hdone. rewrite for_each_job_app by assumption. simpl.
  rewrite lookup_app_r by (rewrite for_each_job_length; lia).
  rewrite for_each_job_length, Nat.sub_diag. simpl.
  destruct (body job) as [job' [e|]]; simpl; [reflexivity|].
  now destruct (for_each_job body after).
Qed.

(** C5.  Pass 1 sets the [nodes] of every job with
    [0 < cpus_min_per_node <= nodeSlots] that it reaches to the maximum of
    the old value and of
    [ceil(cpus_total / (nodeSlots - nodeSlots mod cpus_min_per_node))], and
    leaves the other fields of the job as they were: the divisor is
    positive, the ceiling is the least integer whose product with it reaches
    [cpus_total].  The jobs before it may be of any kind, skipped ones
    among them, as long as the pass completes on them; the jobs after it do
    not matter.  The operands of the divisions are on the range where
    doubles are exact. *)
Theorem slots_reservation_formula (node_slots : Z)
    (before after : list SlurmJob) (job : SlurmJob) :
  Forall (slots_in_float_range node_slots) before ->
  slots_in_float_range node_slots job ->
  snd (_recompute_required_nodes_by_slots_reservation before node_slots)
  = None ->
  0 < cpus_min_per_node job <= node_slots ->
  let usable := node_slots - node_slots mod cpus_min_per_node job in
  let required := ceil_quot (cpus_total job) usable in
  0 < usable
  /\ usable * (required - 1) < cpus_total job <= usable * required
  /\ exists job',
       fst (_recompute_required_nodes_by_slots_reservation
              (before ++ job :: after) node_slots) !! List.length before
       = Some job'
       /\ nodes job' = Z.max required (nodes job)
       /\ job' = mkSlurmJob (id job) (state job) (nodes job')
                   (cpus_total job) (tasks job) (cpus_per_task job)
                   (cpus_min_per_node job) (pending_reason job)
                   (tres_per_job job) (tres_per_task job)
                   (tres_per_node job).
Proof.
  intros _ _ Hdone [Hpos Hle] usable required.
  pose proof (usable_slots_positive node_slots _ Hpos Hle) as Hu.
  fold usable in Hu.
  assert (Hupos : 0 < usable) by lia.
  split; [exact Hupos|].
  split; [exact (ceil_quot_bounds (cpus_total job) usable Hupos)|].
  exists (fst (slots_reservation_body node_slots job)).
  split; [now apply for_each_job_reached|].
  rewrite slots_reservation_body_fits by assumption.
  split; reflexivity.
Qed.

(** The specification's example of slot arithmetic, [nodeSlots=4],
    [cpus_min_per_node=3], [cpus_total=15], [nodes=1], after a job that is
    skipped and one that is reconciled, and before one on which the pass
    raises: [usable = 3], [nodes = 5]. *)
Lemma slots_reservation_formula_example :
  Forall (slots_in_float_range 4) [job_5_slots; job_uneven]
  /\ slots_in_float_range 4 job_slots
  /\ snd (_recompute_required_nodes_by_slots_reservation
            [job_5_slots; job_uneven] 4) = None
  /\ 0 < cpus_min_per_node job_slots <= 4
  /\ 4 - 4 mod cpus_min_per_node job_slots = 3
  /\ exists job',
       fst (_recompute_required_nodes_by_slots_reservation
              ([job_5_slots; job_uneven] ++ job_slots :: [job_no_min_cpus])
              4) !! 2%nat = Some job'
       /\ nodes job' = 5 /\ cpus_total job' = 15.
Proof.
  assert (H1 : Forall (slots_in_float_range 4) [job_5_slots; job_uneven])
    by (repeat constructor; simpl; lia).
  assert (H2 : slots_in_float_range 4 job_slots)
    by (repeat constructor; simpl; lia).
  assert (H3 : snd (_recompute_required_nodes_by_slots_reservation
                      [job_5_slots; job_uneven] 4) = None) by reflexivity.
  assert (H4 : 0 < cpus_min_per_node job_slots <= 4) by (simpl; lia).
  split; [exact H1|]. split; [exact H2|]. split; [exact H3|].
  split; [exact H4|]. split; [reflexivity|].
  destruct (slots_reservation_formula 4 [job_5_slots; job_uneven]
              [job_no_min_cpus] job_slots H1 H2 H3 H4)
    as (_ & _ & job' & Hjob & Hnodes & Hframe).
  exists job'. split; [exact Hjob|].
  split; [rewrite Hnodes; reflexivity|rewrite Hframe; reflexivity].
Defined.

(** C4.  Neither pass ever decreases the [nodes] of a job, for all values of
    [node_slots] and [gpus_per_node]: each job of the list a pass leaves
    behind, also when the pass raised on the way, has at least the [nodes]
    it had before the pass. *)
Theorem reconciliation_never_decreases_nodes (pending_jobs : list SlurmJob)
    (node_slots gpus_per_node : Z) :
  Forall2 (fun job job' => nodes job <= nodes job') pending_jobs
    (fst (_recompute_required_nodes_by_slots_reservation pending_jobs
            node_slots))
  /\ Forall2 (fun job job' => nodes job <= nodes job') pending_jobs
       (fst (_recompute_required_nodes_by_gpu_reservation pending_jobs
               gpus_per_node)).
Proof.
  split.
  - apply for_each_job_related; [intros; lia|].
    intros job.
    destruct (slots_reservation_body_frame node_slots job) as (n & Hn & ->).
    exact Hn.
  - eapply Forall2_impl; [apply gpu_reservation_step|].
    intros job job' Hstep. apply Hstep.
Qed.

(** ** Pass 2: no accelerators, no correction *)

(** C7.  With [gpusPerNode <= 0] Pass 2 returns at once: the jobs, and so
    their [nodes] and [cpus_total], are as they were, whatever the three
    [tres_per_*] mappings hold. *)
Theorem gpu_reservation_noop (pending_jobs : list SlurmJob)
    (gpus_per_node : Z) :
  gpus_per_node <= 0 ->
  _recompute_required_nodes_by_gpu_reservation pending_jobs gpus_per_node
  = (pending_jobs, None)
  /\ Forall2 (fun job job' =>
       nodes job' = nodes job /\ cpus_total job' = cpus_total job)
     pending_jobs
     (fst (_recompute_required_nodes_by_gpu_reservation pending_jobs
             gpus_per_node)).
Proof.
  intros Hle. unfold _recompute_required_nodes_by_gpu_reservation.
  destruct (Z.leb_spec gpus_per_node 0); [|lia].
  split; [reflexivity|]. simpl.
  apply Forall_Forall2_diag, Forall_forall. now intros.
Qed.

Lemma gpu_reservation_noop_example :
  0 <= 0
  /\ _recompute_required_nodes_by_gpu_reservation
       [job_gpus; job_gpus_per_task_8; job_gpus_both] 0
     = ([job_gpus; job_gpus_per_task_8; job_gpus_both], None).
Proof.
  split; [lia|].
  apply (gpu_reservation_noop [job_gpus; job_gpus_per_task_8; job_gpus_both] 0).
  lia.
Defined.

(** ** Pass 2: the formulas *)

Lemma gpu_request_lookup (d : gmap string Z) (g : Z) :
  d !! "gpu"%string = Some g -> g <> 0 -> gpu_request d = Some g.
Proof.
  intros Hd Hg. unfold gpu_request, truthy. rewrite Hd.
  now rewrite (proj2 (Z.eqb_neq g 0) Hg).
Qed.

Lemma gpu_request_nonzero (d : gmap string Z) (g : Z) :
  gpu_request d = Some g -> d !! "gpu"%string = Some g /\ g <> 0.
Proof.
  unfold gpu_request, truthy. destruct (d !! "gpu"%string) as [g'|]; [|easy].
  destruct (Z.eqb_spec g' 0); simpl; [easy|]. intros [= ->]. now split.
Qed.

Lemma raise_min_nodes_tres (n : Z) (job : SlurmJob) :
  tres_per_task (raise_min_nodes n job) = tres_per_task job
  /\ tasks (raise_min_nodes n job) = tasks job.
Proof.
  destruct (raise_min_nodes_frame n job) as [Hframe _].
  rewrite <- Hframe at 2 4. now split.
Qed.

(** Two steps that assign [nodes] and [cpus_total] only make one. *)
Lemma frame_trans (a b c : SlurmJob) :
  set_cpus_total (set_nodes b (nodes a)) (cpus_total a) = a ->
  set_cpus_total (set_nodes c (nodes b)) (cpus_total b) = b ->
  set_cpus_total (set_nodes c (nodes a)) (cpus_total a) = a.
Proof.
  destruct a, b, c. unfold set_cpus_total, set_nodes. simpl.
  intros [= -> -> -> -> -> -> -> -> ->] [= -> -> -> -> -> -> -> -> ->].
  reflexivity.
Qed.

(** With a positive [gpus_per_node] the per-job sub-case cannot raise. *)
Lemma gpus_per_job_case_formula (gpus_per_node : Z) (job : SlurmJob) :
  gpus_per_node <> 0 ->
  gpus_per_job_case gpus_per_node job
  = (raise_min_nodes (spec_min_nodes_per_job gpus_per_node job) job, None).
Proof.
  intros Hg. unfold gpus_per_job_case, spec_min_nodes_per_job.
  destruct (gpu_request _) as [g|].
  - now rewrite py_ceil_div_nonzero.
  - now rewrite raise_min_nodes_same.
Qed.

Lemma gpus_per_task_case_formula (gpus_per_node : Z) (job : SlurmJob) :
  (forall g, gpu_request (tres_per_task job) = Some g ->
             gpus_per_node / g <> 0) ->
  gpus_per_task_case gpus_per_node job
  = (raise_min_nodes (spec_min_nodes_per_task gpus_per_node job) job, None).
Proof.
  intros Hk. unfold gpus_per_task_case, spec_min_nodes_per_task.
  destruct (gpu_request _) as [g|] eqn:Hreq.
  - destruct (gpu_request_nonzero _ _ Hreq) as [_ Hg].
    unfold py_floordiv. rewrite (proj2 (Z.eqb_neq g 0) Hg). simpl.
    now rewrite py_ceil_div_nonzero by auto.
  - now rewrite raise_min_nodes_same.
Qed.

(** The range of the operands of Pass 2, for the jobs of the examples. *)
Ltac solve_gpu_in_float_range :=
  split; [unfold float_exact; lia|];
  split; [unfold float_exact; simpl; lia|];
  split; intros ? Hentry; vm_compute in Hentry;
  try discriminate; injection Hentry as <-; unfold float_exact; lia.

(** C10.  With [gpusPerNode > 0] and a [tres_per_task] entry
    [g > gpusPerNode], the per-task sub-case computes
    [tasks_schedulable_per_node = 0] and the division behind the ceiling
    raises [ZeroDivisionError]: the job is not skipped.  The body of the loop
    raises on that job, and so does Pass 2 on every list that holds it.  The
    operands of the divisions, for the job and for the jobs of the list, are
    on the range where doubles are exact. *)
Theorem gpus_per_task_exceeding_node_raises (gpus_per_node : Z)
    (job : SlurmJob) (g : Z) :
  0 < gpus_per_node ->
  gpu_in_float_range gpus_per_node job ->
  tres_per_task job !! "gpu"%string = Some g ->
  gpus_per_node < g ->
  py_floordiv gpus_per_node g = Ok 0
  /\ py_ceil_div (tasks job) 0 = Raise ZeroDivisionError
  /\ gpus_per_task_case gpus_per_node job = (job, Some ZeroDivisionError)
  /\ snd (gpu_reservation_body gpus_per_node job) = Some ZeroDivisionError
  /\ forall pending_jobs,
       Forall (gpu_in_float_range gpus_per_node) pending_jobs ->
       job ∈ pending_jobs ->
       snd (_recompute_required_nodes_by_gpu_reservation pending_jobs
              gpus_per_node) = Some ZeroDivisionError.
Proof.
  intros Hpos _ Hentry Hlt.
  assert (Hfloor : py_floordiv gpus_per_node g = Ok 0).
  { unfold py_floordiv. rewrite (proj2 (Z.eqb_neq g 0)) by lia.
    now rewrite Z.div_small by lia. }
  assert (Htask : forall job', tres_per_task job' = tres_per_task job ->
            gpus_per_task_case gpus_per_node job'
            = (job', Some ZeroDivisionError)).
  { intros job' Heq. unfold gpus_per_task_case.
    rewrite Heq, (gpu_request_lookup _ g Hentry) by lia.
    now rewrite Hfloor. }
  assert (Hbody : snd (gpu_reservation_body gpus_per_node job)
                  = Some ZeroDivisionError).
  { unfold gpu_reservation_body.
    rewrite gpus_per_job_case_formula by lia.
    rewrite Htask; [reflexivity|]. apply raise_min_nodes_tres. }
  repeat split; auto.
  intros pending_jobs _ Hin.
  unfold _recompute_required_nodes_by_gpu_reservation.
  destruct (Z.leb_spec gpus_per_node 0); [lia|].
  apply for_each_job_raises.
  - intros job' e He. now apply (gpu_reservation_body_exn gpus_per_node job').
  - apply Exists_exists. now exists job.
Qed.

Lemma gpus_per_task_exceeding_node_raises_example :
  0 < 4 /\ gpu_in_float_range 4 job_gpus_per_task_8
  /\ tres_per_task job_gpus_per_task_8 !! "gpu"%string = Some 8 /\ 4 < 8
  /\ Forall (gpu_in_float_range 4)
       [job_gpus; job_gpus_per_task_8; job_gpus_per_task]
  /\ _recompute_required_nodes_by_gpu_reservation
       [job_gpus; job_gpus_per_task_8; job_gpus_per_task] 4
     = ([set_cpus_total (set_nodes job_gpus 3) 3; job_gpus_per_task_8;
         job_gpus_per_task], Some ZeroDivisionError)
  /\ snd (gpu_reservation_body 4 job_gpus_per_task_8)
     = Some ZeroDivisionError
  /\ snd (_recompute_required_nodes_by_gpu_reservation
            [job_gpus; job_gpus_per_task_8; job_gpus_per_task] 4)
     = Some ZeroDivisionError.
Proof.
  assert (H1 : 0 < 4) by lia.
  assert (H0 : gpu_in_float_range 4 job_gpus_per_task_8)
    by solve_gpu_in_float_range.
  assert (H2 : tres_per_task job_gpus_per_task_8 !! "gpu"%string = Some 8)
    by reflexivity.
  assert (H3 : 4 < 8) by lia.
  assert (H4 : Forall (gpu_in_float_range 4)
                 [job_gpus; job_gpus_per_task_8; job_gpus_per_task])
    by (repeat (constructor; [solve_gpu_in_float_range|]); constructor).
  split; [exact H1|]. split; [exact H0|]. split; [exact H2|].
  split; [exact H3|]. split; [exact H4|]. split; [reflexivity|].
  pose proof (gpus_per_task_exceeding_node_raises 4 job_gpus_per_task_8 8
                H1 H0 H2 H3) as (_ & _ & _ & Hbody & Hlist).
  split; [exact Hbody|].
  apply Hlist; [exact H4|]. apply elem_of_cons; right; apply elem_of_cons; now left.
Defined.

(** C6, as stated, fails where a task asks for more GPUs than a node has:
    the specification's formula gives the final [nodes], the body of the
    loop raises before it assigns anything. *)
Lemma gpu_formula_fails_above_node_size :
  ~ exists job',
      gpu_reservation_body 4 job_gpus_per_task_8 = (job', None)
      /\ spec_gpu_reconciled 4 job_gpus_per_task_8 job'.
Proof.
  intros (job' & Hbody & _). vm_compute in Hbody. discriminate.
Qed.

(** What the body of Pass 2 makes of a job it completes on. *)
Lemma gpu_reservation_body_formula (gpus_per_node : Z) (job : SlurmJob) :
  0 < gpus_per_node ->
  (forall g, gpu_request (tres_per_task job) = Some g ->
             gpus_per_node / g <> 0) ->
  exists job',
    gpu_reservation_body gpus_per_node job = (job', None)
    /\ spec_gpu_reconciled gpus_per_node job job'.
Proof.
  intros Hpos Hk.
  set (n1 := spec_min_nodes_per_job gpus_per_node job).
  set (n2 := spec_min_nodes_per_task gpus_per_node job).
  exists (raise_min_nodes n2 (raise_min_nodes n1 job)).
  destruct (raise_min_nodes_tres n1 job) as [Htres Htasks].
  destruct (raise_min_nodes_frame n1 job) as [Hf1 Hc1].
  destruct (raise_min_nodes_frame n2 (raise_min_nodes n1 job)) as [Hf2 Hc2].
  assert (Hn2 : spec_min_nodes_per_task gpus_per_node (raise_min_nodes n1 job)
                = match gpu_request (tres_per_task job) with
                  | Some _ => n2
                  | None => nodes (raise_min_nodes n1 job)
                  end).
  { unfold n2, spec_min_nodes_per_task. rewrite Htres, Htasks.
    now destruct (gpu_request _). }
  split.
  - unfold gpu_reservation_body.
    rewrite gpus_per_job_case_formula by lia. fold n1.
    rewrite gpus_per_task_case_formula by now rewrite Htres.
    rewrite Hn2. destruct (gpu_request (tres_per_task job)) eqn:Hreq;
      [reflexivity|].
    rewrite raise_min_nodes_same.
    assert (n2 = nodes job) as ->
      by (unfold n2, spec_min_nodes_per_task; now rewrite Hreq).
    f_equal. unfold raise_min_nodes at 2.
    rewrite raise_min_nodes_nodes.
    destruct (Z.gtb_spec (nodes job) (Z.max (nodes job) n1)); [lia|easy].
  - unfold spec_gpu_reconciled. fold n1 n2.
    rewrite !raise_min_nodes_nodes, !raise_min_nodes_cpus_total, Hc1.
    rewrite raise_min_nodes_nodes.
    repeat split; [lia|].
    exact (frame_trans _ _ _ Hf1 Hf2).
Qed.

(** C6.  For [gpusPerNode > 0], Pass 2 completes on every job it reaches
    whose per-task request, if any, leaves at least one task to a node
    ([floor(gpusPerNode / g)] is not zero), and leaves at its place a job
    whose [nodes] is the maximum of the old value, of
    [ceil(g / gpusPerNode)] for a per-job request [g] and of
    [ceil(tasks / floor(gpusPerNode / g))] for a per-task request [g]; each
    raise lifts [cpus_total] to [nodes * cpus_min_per_node] when it is
    below; no other field changes.  A request is a "gpu" entry that is not
    zero.  The jobs before it are any jobs the pass completes on, the jobs
    after it do not matter.  The operands of the divisions are on the range
    where doubles are exact. *)
Theorem gpu_reservation_formula (gpus_per_node : Z)
    (before after : list SlurmJob) (job : SlurmJob) :
  0 < gpus_per_node ->
  Forall (gpu_in_float_range gpus_per_node) before ->
  gpu_in_float_range gpus_per_node job ->
  snd (_recompute_required_nodes_by_gpu_reservation before gpus_per_node)
  = None ->
  (forall g, gpu_request (tres_per_task job) = Some g ->
             gpus_per_node / g <> 0) ->
  snd (gpu_reservation_body gpus_per_node job) = None
  /\ exists job',
       fst (_recompute_required_nodes_by_gpu_reservation
              (before ++ job :: after) gpus_per_node) !! List.length before
       = Some job'
       /\ spec_gpu_reconciled gpus_per_node job job'.
Proof.
  intros Hpos _ _ Hdone Hfit.
  destruct (gpu_reservation_body_formula gpus_per_node job Hpos Hfit)
    as (job' & Hbody & Hspec).
  split; [now rewrite Hbody|].
  exists job'. split; [|exact Hspec].
  unfold _recompute_required_nodes_by_gpu_reservation in *.
  destruct (Z.leb_spec gpus_per_node 0); [lia|].
  rewrite for_each_job_reached by assumption. now rewrite Hbody.
Qed.

(** A job with both requests, twelve GPUs for the job and two for each of
    nine tasks on nodes of four, after a job with a per-job request and
    before one on which the pass raises: five nodes, ten CPUs. *)
Lemma gpu_reservation_formula_example :
  0 < 4
  /\ Forall (gpu_in_float_range 4) [job_gpus]
  /\ gpu_in_float_range 4 job_gpus_both
  /\ snd (_recompute_required_nodes_by_gpu_reservation [job_gpus] 4) = None
  /\ (forall g, gpu_request (tres_per_task job_gpus_both) = Some g ->
                4 / g <> 0)
  /\ exists job',
       fst (_recompute_required_nodes_by_gpu_reservation
              ([job_gpus] ++ job_gpus_both :: [job_gpus_per_task_8]) 4)
         !! 1%nat = Some job'
       /\ spec_gpu_reconciled 4 job_gpus_both job'
       /\ nodes job' = 5 /\ cpus_total job' = 10.
Proof.
  assert (Hrange : forall job,
            job = job_gpus \/ job = job_gpus_both ->
            gpu_in_float_range 4 job).
  { intros job [-> | ->]; (split; [unfold float_exact; lia|]);
      (split; [unfold float_exact; simpl; lia|]);
      split; intros g Hg; vm_compute in Hg;
      try discriminate; injection Hg as <-; unfold float_exact; lia. }
  assert (H1 : 0 < 4) by lia.
  assert (H2 : Forall (gpu_in_float_range 4) [job_gpus])
    by (constructor; [apply Hrange; now left|constructor]).
  assert (H3 : gpu_in_float_range 4 job_gpus_both)
    by (apply Hrange; now right).
  assert (H4 : snd (_recompute_required_nodes_by_gpu_reservation
                      [job_gpus] 4) = None) by reflexivity.
  assert (H5 : forall g, gpu_request (tres_per_task job_gpus_both) = Some g ->
                         4 / g <> 0).
  { intros g Hg. vm_compute in Hg. injection Hg as <-. discriminate. }
  split; [exact H1|]. split; [exact H2|]. split; [exact H3|].
  split; [exact H4|]. split; [exact H5|].
  destruct (gpu_reservation_formula 4 [job_gpus] [job_gpus_per_task_8]
              job_gpus_both H1 H2 H3 H4 H5)
    as (_ & job' & Hjob & Hspec).
  exists job'. split; [exact Hjob|]. split; [exact Hspec|].
  destruct Hspec as (Hn & Hc & _). rewrite Hn, Hc. split; reflexivity.
Defined.

(** The specification's two examples of GPU arithmetic. *)
Example gpus_per_job_arithmetic :
  nodes (fst (gpu_reservation_body 4 job_gpus)) = 3.
Proof. reflexivity. Qed.

Example gpus_per_task_arithmetic :
  py_floordiv 4 2 = Ok 2
  /\ nodes (fst (gpu_reservation_body 4 job_gpus_per_task)) = 2.
Proof. split; reflexivity. Qed.

(** ** Both passes *)

Lemma slots_reservation_body_step (node_slots : Z) (job : SlurmJob) :
  slots_step job (fst (slots_reservation_body node_slots job)).
Proof.
  destruct (slots_reservation_body_frame node_slots job) as (n & Hn & ->).
  now exists n.
Qed.

Lemma slots_step_refl (job : SlurmJob) : slots_step job job.
Proof. exists (nodes job). split; [lia|]. now destruct job. Qed.

(** When [cpus_total] is a whole number of tasks, a node count raised by
    Pass 1 is within the CPU floor. *)
Lemma slots_raise_within_total (node_slots c m n : Z) :
  0 < c -> c <= node_slots -> 1 <= n ->
  n < ceil_quot (m * c) (node_slots - node_slots mod c) ->
  ceil_quot (m * c) (node_slots - node_slots mod c) * c <= m * c.
Proof.
  intros Hc Hle Hn Hraise.
  set (q := ceil_quot (m * c) (node_slots - node_slots mod c)) in *.
  assert (Hk : 1 <= node_slots / c) by (apply Z.div_le_lower_bound; lia).
  assert (Hu : node_slots - node_slots mod c = c * (node_slots / c)).
  { pose proof (Z.div_mod node_slots c ltac:(lia)). lia. }
  pose proof (ceil_quot_bounds (m * c) (node_slots - node_slots mod c)) as Hb.
  fold q in Hb. rewrite Hu in Hb.
  destruct Hb as [Hlow _]; [nia|].
  assert (Hqm : node_slots / c * (q - 1) < m) by nia.
  assert (q - 1 <= node_slots / c * (q - 1)) by nia.
  nia.
Qed.

Lemma slots_reservation_body_floor (node_slots : Z) (job : SlurmJob) :
  let job' := fst (slots_reservation_body node_slots job) in
  1 <= nodes job -> 0 <= cpus_min_per_node job ->
  (cpus_min_per_node job | cpus_total job) ->
  nodes job < nodes job' ->
  nodes job' * cpus_min_per_node job <= cpus_total job.
Proof.
  intros job' Hn Hc [m Hm] Hraise. subst job'.
  destruct (Z.lt_ge_cases node_slots (cpus_min_per_node job)) as [Hlt|Hge].
  { rewrite slots_reservation_body_skip in Hraise by assumption.
    simpl in Hraise. lia. }
  destruct (decide (cpus_min_per_node job = 0)) as [Hz|Hnz].
  { destruct (slots_reservation_body_step node_slots job) as (n & _ & Hjob).
    unfold slots_reservation_body in Hraise. rewrite Hz in Hraise.
    destruct (node_slots >=? 0); simpl in Hraise; lia. }
  rewrite slots_reservation_body_fits in Hraise |- * by lia.
  simpl in Hraise |- *. rewrite Hm in Hraise |- *.
  assert (Hq : nodes job
               < ceil_quot (m * cpus_min_per_node job)
                   (node_slots - node_slots mod cpus_min_per_node job))
    by lia.
  assert (Hpos : 0 < cpus_min_per_node job) by lia.
  pose proof (slots_raise_within_total node_slots _ m (nodes job)
                Hpos Hge Hn Hq).
  lia.
Qed.

(** The store Pass 1 leaves, related to the jobs it was given. *)
Lemma after_slots_reservation_step (max_slots_filter : option Z)
    (pending_jobs : list SlurmJob) :
  Forall2 (fun job job1 =>
      slots_step job job1
      /\ (1 <= nodes job -> 0 <= cpus_min_per_node job ->
          (cpus_min_per_node job | cpus_total job) ->
          nodes job < nodes job1 ->
          nodes job1 * cpus_min_per_node job <= cpus_total job))
    pending_jobs (after_slots_reservation max_slots_filter pending_jobs).
Proof.
  unfold after_slots_reservation.
  destruct (truthy_opt max_slots_filter).
  - apply for_each_job_related.
    + intros job. split; [apply slots_step_refl|lia].
    + intros job. split; [apply slots_reservation_body_step|].
      apply slots_reservation_body_floor.
  - apply Forall_Forall2_diag, Forall_forall.
    intros job _. split; [apply slots_step_refl|lia].
Qed.

(** Pass 2 sees the store of Pass 1, or does not run. *)
Lemma recompute_required_nodes_step (max_slots_filter : option Z)
    (max_gpus_per_node : Z) (pending_jobs : list SlurmJob) :
  Forall2 gpu_step (after_slots_reservation max_slots_filter pending_jobs)
    (fst (recompute_required_nodes max_slots_filter max_gpus_per_node
            pending_jobs)).
Proof.
  assert (Hrefl : forall jobs, Forall2 gpu_step jobs jobs).
  { intros jobs. apply Forall_Forall2_diag, Forall_forall.
    intros; apply gpu_step_refl. }
  unfold recompute_required_nodes, after_slots_reservation.
  destruct (truthy_opt max_slots_filter); [|apply Hrefl].
  destruct (_recompute_required_nodes_by_slots_reservation _ _)
    as [jobs1 [e|]]; simpl; [apply Hrefl|].
  apply gpu_reservation_step.
Qed.

(** C3, as stated, fails on a raise made by Pass 1, which assigns [nodes]
    and leaves [cpus_total] alone: four CPUs, three at least on a node, on
    nodes of four slots need two nodes, and two nodes times three CPUs
    exceed the four that stay recorded. *)
Lemma cpu_floor_fails_after_slots_raise :
  recompute_required_nodes (Some 4) 0 [job_uneven]
  = ([set_nodes job_uneven 2], None)
  /\ ~ spec_reconciled job_uneven (set_nodes job_uneven 2).
Proof.
  split; [reflexivity|].
  unfold spec_reconciled. simpl. intros [_ H]. lia.
Qed.

(** C3.  For all parameters, each job that entered the reconciliation with
    [nodes >= 1] has [nodes >= 1] in the store the reconciliation leaves,
    also when a pass raised.  Where Pass 2 raised the [nodes] of a job over
    the value Pass 1 left, [cpus_total >= nodes * cpus_min_per_node] holds;
    it holds after any raise, by either pass, when the reported [cpus_total]
    is a multiple of [cpus_min_per_node] and the operands of the division of
    Pass 1 on the job are on the range where doubles are exact. *)
Theorem reconciliation_invariants (max_slots_filter : option Z)
    (max_gpus_per_node : Z) (pending_jobs : list SlurmJob) :
  let jobs1 := after_slots_reservation max_slots_filter pending_jobs in
  let jobs' := fst (recompute_required_nodes max_slots_filter
                      max_gpus_per_node pending_jobs) in
  Forall2 (fun job job' =>
      (1 <= nodes job -> 1 <= nodes job')
      /\ (1 <= nodes job -> 0 <= cpus_min_per_node job ->
          (cpus_min_per_node job | cpus_total job) ->
          slots_in_float_range (default 0 max_slots_filter) job ->
          spec_reconciled job job'))
    pending_jobs jobs'
  /\ Forall2 (fun job1 job' =>
         nodes job1 < nodes job' ->
         nodes job' * cpus_min_per_node job' <= cpus_total job')
       jobs1 jobs'.
Proof.
  intros jobs1 jobs'.
  pose proof (after_slots_reservation_step max_slots_filter pending_jobs)
    as H1.
  pose proof (recompute_required_nodes_step max_slots_filter
                max_gpus_per_node pending_jobs) as H2.
  fold jobs1 in H1, H2. fold jobs' in H2.
  split.
  - eapply Forall2_trans; [|exact H1|exact H2].
    intros job job1 job' [(n & Hn & ->) Hfloor] (Hle & Hcpus & Hmin & Hraise).
    simpl in *.
    assert (Hnodes : 1 <= nodes job -> 1 <= nodes job') by lia.
    split; [exact Hnodes|].
    intros Hone Hnonneg Hdiv _. split; [auto|]. intros Hup.
    destruct (Z.lt_ge_cases n (nodes job')) as [Hlt|Hge]; [auto|].
    assert (Heq : nodes job' = n) by lia.
    assert (Hup1 : nodes job < n) by lia.
    rewrite Heq, Hmin. specialize (Hfloor Hone Hnonneg Hdiv Hup1). lia.
  - eapply Forall2_impl; [exact H2|].
    intros job1 job' Hstep. apply Hstep.
Qed.

Lemma reconciliation_invariants_example :
  recompute_required_nodes (Some 4) 4 [job_slots; job_gpus_both]
  = ([set_nodes job_slots 5;
      set_cpus_total (set_nodes job_gpus_both 5) 10], None)
  /\ Forall2 (fun job1 job' =>
         nodes job1 < nodes job' ->
         nodes job' * cpus_min_per_node job' <= cpus_total job')
       (after_slots_reservation (Some 4) [job_slots; job_gpus_both])
       [set_nodes job_slots 5; set_cpus_total (set_nodes job_gpus_both 5) 10]
  /\ (cpus_min_per_node job_slots | cpus_total job_slots)
  /\ slots_in_float_range 4 job_slots
  /\ spec_reconciled job_slots (set_nodes job_slots 5).
Proof.
  assert (Hdiv : (cpus_min_per_node job_slots | cpus_total job_slots))
    by (exists 5; reflexivity).
  assert (Hrange : slots_in_float_range 4 job_slots)
    by (repeat constructor; simpl; lia).
  split; [reflexivity|].
  split; [exact (proj2 (reconciliation_invariants (Some 4) 4
                          [job_slots; job_gpus_both]))|].
  split; [exact Hdiv|]. split; [exact Hrange|].
  pose proof (proj1 (reconciliation_invariants (Some 4) 4
                       [job_slots; job_gpus_both])) as Hall.
  assert (Hrun : fst (recompute_required_nodes (Some 4) 4
                        [job_slots; job_gpus_both])
                 = [set_nodes job_slots 5;
                    set_cpus_total (set_nodes job_gpus_both 5) 10])
    by reflexivity.
  rewrite Hrun in Hall. apply Forall2_cons_1 in Hall as [[_ Hjob] _].
  apply Hjob; [simpl; lia|simpl; lia|exact Hdiv|exact Hrange].
Defined.

(** ** The gate in front of the two passes *)

(** C2, as stated, fails: without [max_slots_filter] a job that asks for
    twelve GPUs on nodes of four keeps its single node, where Pass 2 would
    have given it three. *)
Lemma gpu_reservation_skipped_without_slots :
  ~ spec_gpu_pass_applied None 4 [job_gpus].
Proof. unfold spec_gpu_pass_applied. vm_compute. discriminate. Qed.

(** C2.  Both passes are under the test of [max_slots_filter].  When it is
    absent (or zero) neither pass runs, whatever [gpusPerNode] is, and the
    jobs reach the filter as the scheduler reported them.  When it is
    supplied, Pass 2 runs on the store of Pass 1 if Pass 1 completed, and an
    exception of Pass 1 leaves the function. *)
Theorem gpu_reservation_gated_by_slots (max_slots_filter max_nodes_filter :
      option Z) (filter_by_pending_reasons : option (list string))
    (max_gpus_per_node : Z) (pending_jobs : list SlurmJob) :
  (truthy_opt max_slots_filter = false ->
     recompute_required_nodes max_slots_filter max_gpus_per_node pending_jobs
     = (pending_jobs, None)
     /\ get_pending_jobs_info max_slots_filter max_nodes_filter
          filter_by_pending_reasons max_gpus_per_node pending_jobs
        = Ok (filter_pending_jobs max_slots_filter max_nodes_filter
                filter_by_pending_reasons pending_jobs))
  /\ (forall node_slots,
        max_slots_filter = Some node_slots -> node_slots <> 0 ->
        match _recompute_required_nodes_by_slots_reservation pending_jobs
                node_slots with
        | (jobs1, None) =>
            recompute_required_nodes max_slots_filter max_gpus_per_node
              pending_jobs
            = _recompute_required_nodes_by_gpu_reservation jobs1
                max_gpus_per_node
        | (jobs1, Some e) =>
            get_pending_jobs_info max_slots_filter max_nodes_filter
              filter_by_pending_reasons max_gpus_per_node pending_jobs
            = Raise e
        end).
Proof.
  split.
  - intros Hoff. unfold get_pending_jobs_info, recompute_required_nodes.
    now rewrite Hoff.
  - intros node_slots -> Hnz.
    unfold get_pending_jobs_info, recompute_required_nodes. simpl.
    unfold truthy. rewrite (proj2 (Z.eqb_neq node_slots 0) Hnz). simpl.
    now destruct (_recompute_required_nodes_by_slots_reservation _ _)
      as [jobs1 [e|]].
Qed.

Lemma gpu_reservation_gated_by_slots_example :
  truthy_opt None = false
  /\ get_pending_jobs_info None None None 4 [job_gpus] = Ok [job_gpus]
  /\ get_pending_jobs_info (Some 4) None None 4 [job_gpus]
     = Ok [set_cpus_total (set_nodes job_gpus 3) 3].
Proof.
  split; [reflexivity|]. split; [|reflexivity].
  exact (proj2 (proj1 (gpu_reservation_gated_by_slots None None None 4
                         [job_gpus]) eq_refl)).
Defined.

(** ** The filter *)

Lemma filter_loop_spec (max_slots_filter max_nodes_filter : option Z)
    (filter_by_pending_reasons : option (list string))
    (pending_jobs filtered_jobs : list SlurmJob) :
  filter_loop max_slots_filter max_nodes_filter filter_by_pending_reasons
    pending_jobs filtered_jobs
  = filtered_jobs
    ++ List.filter (job_is_kept max_slots_filter max_nodes_filter
                      filter_by_pending_reasons) pending_jobs.
Proof.
  revert filtered_jobs.
  induction pending_jobs as [|job rest IH]; intros filtered_jobs; simpl.
  - now rewrite app_nil_r.
  - rewrite IH. destruct (job_is_kept _ _ _ job); [|reflexivity].
    now rewrite <- app_assoc.
Qed.

(** The chain of tests keeps a job exactly when every supplied constraint
    holds of it. *)
Lemma job_is_kept_spec (max_slots_filter max_nodes_filter : option Z)
    (filter_by_pending_reasons : option (list string)) (job : SlurmJob) :
  (forall m, max_slots_filter = Some m -> m <> 0) ->
  (forall m, max_nodes_filter = Some m -> m <> 0) ->
  job_is_kept max_slots_filter max_nodes_filter filter_by_pending_reasons job
  = bool_decide (spec_constraints_hold max_slots_filter max_nodes_filter
                   filter_by_pending_reasons job).
Proof.
  intros Hs Hn.
  assert (Hiff : job_is_kept max_slots_filter max_nodes_filter
                   filter_by_pending_reasons job = true
                 <-> spec_constraints_hold max_slots_filter max_nodes_filter
                       filter_by_pending_reasons job).
  { unfold job_is_kept, spec_constraints_hold, truthy_opt, truthy.
    destruct max_slots_filter as [ms|];
      [rewrite (proj2 (Z.eqb_neq ms 0)) by now apply Hs|];
      (destruct max_nodes_filter as [mn|];
        [rewrite (proj2 (Z.eqb_neq mn 0)) by now apply Hn|]);
      destruct filter_by_pending_reasons as [[|r rs]|]; simpl;
      repeat match goal with
        | |- context [?a >? ?b] => destruct (Z.gtb_spec a b); simpl
        | |- context [bool_decide (?x ∈ ?l)] =>
            destruct (bool_decide_reflect (x ∈ l)); simpl
        end;
      intuition (discriminate || lia || auto). }
  destruct (job_is_kept _ _ _ job); symmetry.
  - apply bool_decide_eq_true_2. now apply Hiff.
  - apply bool_decide_eq_false_2. intros H. apply Hiff in H. discriminate.
Qed.

(** C8.  With each supplied ceiling a genuine one (not zero, which the
    tests treat as absent), the filter returns, in the original order,
    exactly the jobs for which every supplied constraint holds:
    [cpus_min_per_node <= maxSlotsFilter], [nodes <= maxNodesFilter] and
    [pending_reason] among the allowed reasons, an absent ceiling and an
    absent or empty set of reasons constraining nothing; with no constraint
    at all the list is returned as it is. *)
Theorem filter_semantics (max_slots_filter max_nodes_filter : option Z)
    (allowed_pending_reasons : option (list string))
    (pending_jobs : list SlurmJob) :
  (forall m, max_slots_filter = Some m -> m <> 0) ->
  (forall m, max_nodes_filter = Some m -> m <> 0) ->
  filter_pending_jobs max_slots_filter max_nodes_filter
    allowed_pending_reasons pending_jobs
  = filter (spec_constraints_hold max_slots_filter max_nodes_filter
              allowed_pending_reasons) pending_jobs
  /\ (max_slots_filter = None -> max_nodes_filter = None ->
      allowed_pending_reasons = None \/ allowed_pending_reasons = Some [] ->
      filter_pending_jobs max_slots_filter max_nodes_filter
        allowed_pending_reasons pending_jobs = pending_jobs).
Proof.
  intros Hs Hn. split.
  - unfold filter_pending_jobs.
    destruct (_ || _ || _) eqn:Hany.
    + rewrite filter_loop_spec. simpl.
      induction pending_jobs as [|job rest IH]; [reflexivity|].
      simpl. rewrite filter_cons, IH, job_is_kept_spec by assumption.
      destruct (decide _) as [Hd|Hd].
      * now rewrite bool_decide_eq_true_2.
      * now rewrite bool_decide_eq_false_2.
    + apply orb_false_elim in Hany as [Hany Hmn].
      apply orb_false_elim in Hany as [Hms Hr].
      assert (max_slots_filter = None) as ->.
      { destruct max_slots_filter as [m|]; [|reflexivity].
        simpl in Hms. unfold truthy in Hms.
        rewrite (proj2 (Z.eqb_neq m 0)) in Hms by now apply Hs.
        discriminate. }
      assert (max_nodes_filter = None) as ->.
      { destruct max_nodes_filter as [m|]; [|reflexivity].
        simpl in Hmn. unfold truthy in Hmn.
        rewrite (proj2 (Z.eqb_neq m 0)) in Hmn by now apply Hn.
        discriminate. }
      symmetry. induction pending_jobs as [|job rest IH]; [reflexivity|].
      rewrite filter_cons, IH. rewrite decide_True; [reflexivity|].
      unfold spec_constraints_hold.
      destruct allowed_pending_reasons as [[|r rs]|]; simpl in *;
        (discriminate || easy).
  - intros -> -> [->| ->]; reflexivity.
Qed.

(** The specification's example: a job with [cpus_min_per_node=5] is
    excluded with [maxSlotsFilter=4]; its neighbours stay, in order. *)
Lemma filter_semantics_example :
  (forall m, Some 4 = Some m -> m <> 0)
  /\ (forall m, @None Z = Some m -> m <> 0)
  /\ filter_pending_jobs (Some 4) None None
       [job_slots; job_5_slots; job_gpus]
     = [job_slots; job_gpus].
Proof.
  assert (H1 : forall m, Some 4 = Some m -> m <> 0)
    by (intros m [= <-]; discriminate).
  assert (H2 : forall m, @None Z = Some m -> m <> 0) by discriminate.
  split; [exact H1|]. split; [exact H2|].
  rewrite (proj1 (filter_semantics (Some 4) None None
                    [job_slots; job_5_slots; job_gpus] H1 H2)).
  reflexivity.
Defined.

(** ** Splitting text *)

Section Split.

Variable sep : ascii.

Lemma split_on_nonempty (s : string) : split_on sep s <> [].
Proof.
  destruct s as [|c rest]; simpl; [discriminate|].
  destruct (Ascii.eqb c sep); [discriminate|].
  destruct (split_on sep rest); discriminate.
Qed.

(** The pieces, joined by the separator, are the text. *)
Lemma join_with_split_on (s : string) :
  join_with sep (split_on sep s) = s.
Proof.
  induction s as [|c rest IH]; [reflexivity|]. simpl.
  destruct (Ascii.eqb_spec c sep) as [->|Hc].
  - simpl. pose proof (split_on_nonempty rest) as Hne.
    destruct (split_on sep rest) as [|piece pieces]; [easy|].
    now rewrite IH.
  - pose proof (split_on_nonempty rest) as Hne.
    destruct (split_on sep rest) as [|piece pieces]; [easy|].
    simpl in *. destruct pieces; now rewrite <- IH.
Qed.

(** No piece holds the separator. *)
Lemma split_on_pieces (s : string) :
  Forall (fun piece => sep ∉ list_ascii_of_string piece) (split_on sep s).
Proof.
  induction s as [|c rest IH]; simpl.
  - repeat constructor. apply not_elem_of_nil.
  - destruct (Ascii.eqb_spec c sep) as [->|Hc].
    + constructor; [apply not_elem_of_nil|exact IH].
    + destruct (split_on sep rest) as [|piece pieces].
      * repeat constructor. simpl. apply not_elem_of_cons.
        split; [congruence|apply not_elem_of_nil].
      * inversion IH as [|? ? Hp Hps]; subst. constructor; [|exact Hps].
        simpl. apply not_elem_of_cons. split; [congruence|exact Hp].
Qed.

Lemma split_on_without_sep (s : string) :
  sep ∉ list_ascii_of_string s -> split_on sep s = [s].
Proof.
  induction s as [|c rest IH]; [reflexivity|]. simpl.
  intros [Hc Hrest]%not_elem_of_cons.
  destruct (Ascii.eqb_spec c sep) as [->|_]; [congruence|].
  now rewrite IH.
Qed.

Lemma split_on_app (a b : string) :
  sep ∉ list_ascii_of_string a ->
  split_on sep (a ++ String sep b)%string = a :: split_on sep b.
Proof.
  induction a as [|c rest IH]; simpl.
  - intros _. now rewrite Ascii.eqb_refl.
  - intros [Hc Hrest]%not_elem_of_cons.
    destruct (Ascii.eqb_spec c sep) as [->|_]; [congruence|].
    now rewrite IH.
Qed.

Lemma split_on_single (s piece : string) :
  split_on sep s = [piece] ->
  s = piece /\ (sep ∉ list_ascii_of_string s).
Proof.
  intros Hs. split.
  - rewrite <- (join_with_split_on s), Hs. reflexivity.
  - pose proof (split_on_pieces s) as Hp. rewrite Hs in Hp.
    inversion Hp as [|? ? Hpiece _]; subst.
    rewrite <- (join_with_split_on s), Hs. exact Hpiece.
Qed.

Lemma split_on_pair (s a b : string) :
  split_on sep s = [a; b] <->
  s = (a ++ String sep b)%string
  /\ (sep ∉ list_ascii_of_string a) /\ (sep ∉ list_ascii_of_string b).
Proof.
  split.
  - intros Hs. pose proof (split_on_pieces s) as Hp. rewrite Hs in Hp.
    inversion Hp as [|? ? Ha Hp']; subst.
    inversion Hp' as [|? ? Hb _]; subst.
    split; [|now split].
    rewrite <- (join_with_split_on s), Hs. reflexivity.
  - intros (-> & Ha & Hb).
    now rewrite split_on_app, split_on_without_sep.
Qed.

End Split.

(** ** [transform_tres_to_dict] *)

Section TresProperties.

Variable int_of_str : string -> option Z.

(** A piece parses exactly when it is a token [name:integer]. *)
Lemma parse_tres_token (tres resource : string) (n : Z) :
  parse_tres int_of_str tres = Ok (resource, n)
  <-> spec_token int_of_str tres resource n.
Proof.
  unfold parse_tres, spec_token. split.
  - destruct (split_on ":" tres) as [|a [|b [|c rest]]] eqn:Hs;
      try discriminate.
    destruct (int_of_str b) as [k|] eqn:Hb; [|discriminate].
    intros [= <- <-]. apply split_on_pair in Hs as (-> & Ha & Hb').
    now exists b.
  - intros (value & -> & Hr & Hv & Hint).
    rewrite (proj2 (split_on_pair ":" _ resource value)) by easy.
    now rewrite Hint.
Qed.

Lemma parse_tres_exn (tres : string) (e : exn) :
  parse_tres int_of_str tres = Raise e -> e = ValueError.
Proof.
  unfold parse_tres, Raise, Ok.
  repeat (case_match; try discriminate); congruence.
Qed.

Lemma parse_tres_not_token (tres : string) :
  (forall resource n, ~ spec_token int_of_str tres resource n) ->
  parse_tres int_of_str tres = Raise ValueError.
Proof.
  intros Hnot. destruct (parse_tres int_of_str tres) as [e|[r n]] eqn:Hp.
  - now rewrite (parse_tres_exn _ _ Hp).
  - exfalso. apply (Hnot r n). now apply parse_tres_token.
Qed.

(** The loop inserts the tokens in order. *)
Lemma tres_loop_tokens (pieces : list string) (entries : list (string * Z))
    (tres_dict : gmap string Z) :
  Forall2 (fun tres entry => spec_token int_of_str tres entry.1 entry.2)
    pieces entries ->
  tres_loop int_of_str pieces tres_dict
  = Ok (foldl (fun d entry => <[entry.1 := entry.2]> d) tres_dict entries).
Proof.
  intros Hall. revert tres_dict.
  induction Hall as [|tres [r n] pieces entries Htok _ IH];
    intros tres_dict; simpl; [reflexivity|].
  apply parse_tres_token in Htok. simpl in Htok. rewrite Htok.
  apply IH.
Qed.

Lemma tres_loop_not_token (pieces : list string)
    (tres_dict : gmap string Z) :
  Exists (fun tres => forall resource n,
                        ~ spec_token int_of_str tres resource n) pieces ->
  tres_loop int_of_str pieces tres_dict = Raise ValueError.
Proof.
  intros Hex. revert tres_dict.
  induction pieces as [|tres rest IH]; intros tres_dict;
    [inversion Hex|].
  simpl. destruct (parse_tres int_of_str tres) as [e|[r n]] eqn:Hp.
  - now rewrite (parse_tres_exn _ _ Hp).
  - apply IH. inversion Hex as [? ? Hhd|? ? Htl]; subst; [|exact Htl].
    exfalso. apply (Hhd r n). now apply parse_tres_token.
Qed.

End TresProperties.

Lemma foldl_insert_mapping (entries : list (string * Z)) :
  foldl (fun (d : gmap string Z) entry => <[entry.1 := entry.2]> d) ∅ entries
  = spec_tres_mapping entries.
Proof.
  unfold spec_tres_mapping.
  induction entries as [|[r n] entries IH] using rev_ind; [reflexivity|].
  rewrite foldl_app, reverse_app. simpl. now rewrite IH.
Qed.

(** The characters of a concatenation: a character that is in neither of
    two texts is not in the text they make. *)
Lemma list_ascii_of_string_app (a b : string) :
  list_ascii_of_string (a ++ b)
  = list_ascii_of_string a ++ list_ascii_of_string b.
Proof. induction a as [|c a IH]; simpl; [reflexivity|]. now rewrite IH. Qed.

Lemma not_in_string_app (c : ascii) (a b : string) :
  c ∉ list_ascii_of_string (a ++ b)
  <-> (c ∉ list_ascii_of_string a) /\ (c ∉ list_ascii_of_string b).
Proof. rewrite list_ascii_of_string_app. apply not_elem_of_app. Qed.

(** Joining pieces that are free of the separator and cutting the text
    again gives the pieces back. *)
Lemma split_on_join_with (sep : ascii) (pieces : list string) :
  pieces <> [] ->
  Forall (fun piece => sep ∉ list_ascii_of_string piece) pieces ->
  split_on sep (join_with sep pieces) = pieces.
Proof.
  intros Hne Hfree. induction Hfree as [|piece rest Hpiece Hrest IH];
    [congruence|].
  destruct rest as [|next rest].
  - simpl. now apply split_on_without_sep.
  - change (join_with sep (piece :: next :: rest))
      with (piece ++ String sep (join_with sep (next :: rest)))%string.
    rewrite split_on_app by assumption. f_equal. now apply IH.
Qed.

(** A text is free of a character. *)
Ltac solve_not_in_string :=
  simpl; let Hin := fresh "Hin" in intros Hin;
  repeat (apply elem_of_cons in Hin as [Hin|Hin]; [discriminate|]);
  now apply elem_of_nil in Hin.

(** The text of a sequence of requests parses to the requests. *)
Lemma tres_text_parses (int_of_str : string -> option Z)
    (entries : list (string * string * Z)) :
  entries <> [] ->
  Forall (fun entry =>
      let '(name, literal, n) := entry in
      (","%char ∉ list_ascii_of_string name)
      /\ (":"%char ∉ list_ascii_of_string name)
      /\ (","%char ∉ list_ascii_of_string literal)
      /\ (":"%char ∉ list_ascii_of_string literal)
      /\ int_of_str literal = Some n)
    entries ->
  transform_tres_to_dict int_of_str
    (tres_text (map (fun entry => (entry.1.1, entry.1.2)) entries))
  = Ok (spec_tres_mapping (map (fun entry => (entry.1.1, entry.2)) entries)).
Proof.
  intros Hne Hall.
  set (tokens := map tres_token
                   (map (fun entry : string * string * Z =>
                           (entry.1.1, entry.1.2)) entries)).
  assert (Hsplit : split_on "," (join_with "," tokens) = tokens).
  { apply split_on_join_with.
    - unfold tokens. destruct entries; [congruence|discriminate].
    - unfold tokens. rewrite !Forall_fmap.
      eapply Forall_impl; [exact Hall|].
      intros [[name literal] n] (Hn1 & _ & Hl1 & _). simpl.
      unfold tres_token. simpl.
      apply not_in_string_app. split; [exact Hn1|].
      simpl. apply not_elem_of_cons. split; [discriminate|exact Hl1]. }
  assert (Htok : Forall2 (fun tres entry =>
              spec_token int_of_str tres entry.1 entry.2) tokens
              (map (fun entry : string * string * Z =>
                      (entry.1.1, entry.2)) entries)).
  { unfold tokens. rewrite map_map.
    apply Forall2_fmap, Forall_Forall2_diag.
    eapply Forall_impl; [exact Hall|].
    intros [[name literal] n] (_ & Hn2 & _ & Hl2 & Hint). simpl.
    now exists literal. }
  unfold transform_tres_to_dict, tres_text. fold tokens.
  destruct (String.eqb_spec (join_with "," tokens) "N/A") as [Hna|_].
  - exfalso. rewrite Hna in Hsplit. simpl in Hsplit.
    rewrite <- Hsplit in Htok.
    inversion Htok as [|? [r n] ? ? Hspec _]; subst.
    apply parse_tres_token in Hspec. discriminate.
  - rewrite Hsplit, (tres_loop_tokens _ _ _ _ Htok). f_equal.
    apply foldl_insert_mapping.
Qed.

(** C9.  For every reading [int_of_str] of integer literals,
    [transform_tres_to_dict] maps ["N/A"] to the empty mapping; it maps the
    text of a sequence of tokens [name:integer], joined by commas, to the
    mapping of each name to its count (the last count of a repeated name);
    and it raises [ValueError] on a text, other than ["N/A"], made of
    tokens joined by commas of which one is not of the form
    [name:integer].  Names and integer literals hold no comma and no
    colon; a token holds no comma. *)
Theorem transform_tres_to_dict_spec (int_of_str : string -> option Z) :
  transform_tres_to_dict int_of_str "N/A" = Ok ∅
  /\ (forall entries : list (string * string * Z),
        entries <> [] ->
        Forall (fun entry =>
            let '(name, literal, n) := entry in
            (","%char ∉ list_ascii_of_string name)
            /\ (":"%char ∉ list_ascii_of_string name)
            /\ (","%char ∉ list_ascii_of_string literal)
            /\ (":"%char ∉ list_ascii_of_string literal)
            /\ int_of_str literal = Some n)
          entries ->
        transform_tres_to_dict int_of_str
          (join_with ","
             (map (fun entry => (entry.1.1 ++ ":" ++ entry.1.2)%string)
                entries))
        = Ok (spec_tres_mapping
                (map (fun entry => (entry.1.1, entry.2)) entries)))
  /\ (forall tokens : list string,
        tokens <> [] ->
        Forall (fun tres => ","%char ∉ list_ascii_of_string tres) tokens ->
        join_with "," tokens <> "N/A"%string ->
        Exists (fun tres => forall resource n,
                              ~ spec_token int_of_str tres resource n)
          tokens ->
        transform_tres_to_dict int_of_str (join_with "," tokens)
        = Raise ValueError).
Proof.
  split; [reflexivity|]. split.
  - intros entries Hne Hall.
    rewrite <- (tres_text_parses int_of_str entries Hne Hall).
    unfold tres_text. now rewrite map_map.
  - intros tokens Hne Hfree Hna Hbad.
    unfold transform_tres_to_dict.
    apply String.eqb_neq in Hna. rewrite Hna.
    rewrite split_on_join_with by assumption.
    now apply tres_loop_not_token.
Qed.

(** The specification's examples, ["gpu:12"] to [{"gpu": 12}] and ["N/A"]
    to the empty mapping; two tokens; a token without a colon. *)
Lemma transform_tres_to_dict_example :
  transform_tres_to_dict decimal_int "gpu:12" = Ok {["gpu"%string := 12]}
  /\ transform_tres_to_dict decimal_int "gpu:12,mic:3"
     = Ok (<["mic"%string := 3]> {["gpu"%string := 12]})
  /\ transform_tres_to_dict decimal_int "N/A" = Ok ∅
  /\ transform_tres_to_dict decimal_int "gpu:12,mic" = Raise ValueError.
Proof.
  pose proof (transform_tres_to_dict_spec decimal_int)
    as (Hna & Htokens & Herror).
  split; [|split; [|split]].
  - apply (Htokens [("gpu", "12", 12)]%string); [discriminate|].
    repeat constructor; solve_not_in_string.
  - apply (Htokens [("gpu", "12", 12); ("mic", "3", 3)]%string);
      [discriminate|].
    repeat constructor; solve_not_in_string.
  - exact Hna.
  - apply (Herror ["gpu:12"; "mic"]%string); [discriminate| |discriminate|].
    + repeat constructor; solve_not_in_string.
    + apply Exists_cons_tl, Exists_cons_hd.
      intros resource n Htok. apply parse_tres_token in Htok. discriminate.
Defined.

(** * Further properties of the two passes *)

Section ForEachMore.

Variable body : SlurmJob -> outcome SlurmJob.

(** The loop completes exactly when the body completes on every job. *)
Lemma for_each_job_completes_iff (pending_jobs : list SlurmJob) :
  snd (for_each_job body pending_jobs) = None
  <-> Forall (fun job => snd (body job) = None) pending_jobs.
Proof.
  split.
  - induction pending_jobs as [|job rest IH]; simpl; [constructor|].
    destruct (body job) as [job' [e|]] eqn:Hb; simpl; [discriminate|].
    destruct (for_each_job body rest) as [rest' r]; simpl in *.
    intros ->. constructor; [now rewrite Hb|now apply IH].
  - intros Hall. now rewrite for_each_job_completes.
Qed.

(** A body that finds nothing left to do on a job it has processed makes a
    loop that can be run again without effect. *)
Lemma for_each_job_idempotent (pending_jobs : list SlurmJob) :
  (forall job, body (fst (body job)) = body job) ->
  for_each_job body (fst (for_each_job body pending_jobs))
  = for_each_job body pending_jobs.
Proof.
  intros Hidem.
  induction pending_jobs as [|job rest IH]; simpl; [reflexivity|].
  pose proof (Hidem job) as Hjob.
  destruct (body job) as [job' [e|]] eqn:Hb; simpl in *.
  - now rewrite Hjob.
  - destruct (for_each_job body rest) as [rest' r] eqn:Hrest; simpl in *.
    now rewrite Hjob, IH.
Qed.

(** An exception of the loop is an exception of the body on some job. *)
Lemma for_each_job_raised (e : exn) (pending_jobs : list SlurmJob) :
  snd (for_each_job body pending_jobs) = Some e ->
  Exists (fun job => snd (body job) = Some e) pending_jobs.
Proof.
  induction pending_jobs as [|job rest IH]; simpl; [discriminate|].
  destruct (body job) as [job' [e'|]] eqn:Hb; simpl.
  - intros [= ->]. apply Exists_cons_hd. now rewrite Hb.
  - destruct (for_each_job body rest) as [rest' r]; simpl in *.
    intros Hr. apply Exists_cons_tl. now apply IH.
Qed.

End ForEachMore.

Lemma raise_min_nodes_below (n : Z) (job : SlurmJob) :
  n <= nodes job -> raise_min_nodes n job = job.
Proof.
  intros Hle. unfold raise_min_nodes.
  destruct (Z.gtb_spec n (nodes job)); [lia|reflexivity].
Qed.

Lemma raise_min_nodes_requests (n : Z) (job : SlurmJob) :
  tres_per_job (raise_min_nodes n job) = tres_per_job job.
Proof.
  destruct (raise_min_nodes_frame n job) as [Hframe _].
  rewrite <- Hframe at 2. reflexivity.
Qed.

Lemma slots_reservation_body_again (node_slots : Z) (job : SlurmJob) :
  slots_reservation_body node_slots
    (fst (slots_reservation_body node_slots job))
  = slots_reservation_body node_slots job.
Proof.
  unfold slots_reservation_body at 2 3.
  destruct (node_slots >=? cpus_min_per_node job) eqn:Hge;
    [|simpl; unfold slots_reservation_body; now rewrite Hge].
  destruct (py_mod _ _) as [e|r] eqn:Hmod;
    [simpl; unfold slots_reservation_body; now rewrite Hge, Hmod|].
  simpl.
  destruct (py_ceil_div _ _) as [e|q] eqn:Hceil;
    [simpl; unfold slots_reservation_body; now rewrite Hge, Hmod, Hceil|].
  simpl. unfold slots_reservation_body. simpl.
  rewrite Hge, Hmod. simpl. rewrite Hceil. unfold set_nodes. simpl.
  do 2 f_equal. lia.
Qed.

(** X1.  Pass 1 writes the [nodes] of a job and nothing else, keeps the
    jobs in their number and order, also when it raises, and a second run
    over the jobs it has left changes nothing and ends as the first did. *)
Theorem slots_reservation_frame_idempotent (pending_jobs : list SlurmJob)
    (node_slots : Z) :
  let run := _recompute_required_nodes_by_slots_reservation in
  Forall2 (fun job job' => job' = set_nodes job (nodes job'))
    pending_jobs (fst (run pending_jobs node_slots))
  /\ List.length (fst (run pending_jobs node_slots))
     = List.length pending_jobs
  /\ run (fst (run pending_jobs node_slots)) node_slots
     = run pending_jobs node_slots.
Proof.
  intros run.
  assert (Hframe : Forall2 (fun job job' => job' = set_nodes job (nodes job'))
                     pending_jobs (fst (run pending_jobs node_slots))).
  { apply for_each_job_related.
    - intros job. now destruct job.
    - intros job.
      destruct (slots_reservation_body_frame node_slots job) as (n & _ & ->).
      reflexivity. }
  split; [exact Hframe|]. split.
  - symmetry. exact (Forall2_length _ _ _ Hframe).
  - apply for_each_job_idempotent. apply slots_reservation_body_again.
Qed.

(** A job that already has the nodes a sub-case of Pass 2 would give it is
    left alone by that sub-case, which ends as it did before. *)
Lemma gpus_per_job_case_settled (gpus_per_node : Z) (job job' : SlurmJob) :
  tres_per_job job' = tres_per_job job ->
  nodes (fst (gpus_per_job_case gpus_per_node job)) <= nodes job' ->
  gpus_per_job_case gpus_per_node job'
  = (job', snd (gpus_per_job_case gpus_per_node job)).
Proof.
  unfold gpus_per_job_case. intros -> Hle.
  destruct (gpu_request _) as [g|]; [|reflexivity].
  destruct (py_ceil_div _ _) as [e|n]; simpl in *; [reflexivity|].
  rewrite raise_min_nodes_nodes in Hle.
  now rewrite raise_min_nodes_below by lia.
Qed.

Lemma gpus_per_task_case_settled (gpus_per_node : Z) (job job' : SlurmJob) :
  tres_per_task job' = tres_per_task job -> tasks job' = tasks job ->
  nodes (fst (gpus_per_task_case gpus_per_node job)) <= nodes job' ->
  gpus_per_task_case gpus_per_node job'
  = (job', snd (gpus_per_task_case gpus_per_node job)).
Proof.
  unfold gpus_per_task_case. intros -> -> Hle.
  destruct (gpu_request _) as [g|]; [|reflexivity].
  destruct (py_floordiv _ _) as [e|k]; simpl in *; [reflexivity|].
  destruct (py_ceil_div _ _) as [e|n]; simpl in *; [reflexivity|].
  rewrite raise_min_nodes_nodes in Hle.
  now rewrite raise_min_nodes_below by lia.
Qed.

Lemma gpus_per_job_case_raised (gpus_per_node : Z) (job : SlurmJob) (e : exn) :
  snd (gpus_per_job_case gpus_per_node job) = Some e ->
  fst (gpus_per_job_case gpus_per_node job) = job.
Proof.
  unfold gpus_per_job_case.
  destruct (gpu_request _) as [g|]; [|discriminate].
  now destruct (py_ceil_div _ _).
Qed.

Lemma gpu_reservation_body_again (gpus_per_node : Z) (job : SlurmJob) :
  gpu_reservation_body gpus_per_node
    (fst (gpu_reservation_body gpus_per_node job))
  = gpu_reservation_body gpus_per_node job.
Proof.
  unfold gpu_reservation_body at 2 3.
  destruct (gpus_per_job_case_raise gpus_per_node job) as [n1 H1].
  destruct (gpus_per_job_case gpus_per_node job) as [job1 [e|]] eqn:Hjob.
  - pose proof (gpus_per_job_case_raised gpus_per_node job e) as Hsame.
    rewrite Hjob in Hsame. simpl in *. rewrite Hsame by reflexivity.
    unfold gpu_reservation_body. rewrite Hjob, Hsame by reflexivity.
    reflexivity.
  - simpl in H1.
    destruct (gpus_per_task_case_raise gpus_per_node job1) as [n2 H2].
    destruct (gpus_per_task_case gpus_per_node job1) as [job2 r2] eqn:Htask.
    simpl in *. unfold gpu_reservation_body.
    assert (Hreq : tres_per_job job2 = tres_per_job job)
      by (subst; now rewrite !raise_min_nodes_requests).
    assert (Hle1 : nodes job1 <= nodes job2)
      by (subst job2; rewrite raise_min_nodes_nodes; lia).
    rewrite (gpus_per_job_case_settled gpus_per_node job job2 Hreq)
      by now rewrite Hjob.
    rewrite Hjob. simpl.
    destruct (raise_min_nodes_tres n2 job1) as [Htres Htasks].
    rewrite <- H2 in Htres, Htasks.
    rewrite (gpus_per_task_case_settled gpus_per_node job1 job2 Htres Htasks)
      by (rewrite Htask; simpl; lia).
    now rewrite Htask.
Qed.

(** X2.  Pass 2 writes [nodes] and [cpus_total] of a job and nothing else,
    never lowers [cpus_total], keeps the jobs in their number and order, also
    when it raises, and a second run over the jobs it has left changes
    nothing and ends as the first did. *)
Theorem gpu_reservation_frame_idempotent (pending_jobs : list SlurmJob)
    (gpus_per_node : Z) :
  let run := _recompute_required_nodes_by_gpu_reservation in
  Forall2 (fun job job' =>
      set_cpus_total (set_nodes job' (nodes job)) (cpus_total job) = job
      /\ cpus_total job <= cpus_total job')
    pending_jobs (fst (run pending_jobs gpus_per_node))
  /\ List.length (fst (run pending_jobs gpus_per_node))
     = List.length pending_jobs
  /\ run (fst (run pending_jobs gpus_per_node)) gpus_per_node
     = run pending_jobs gpus_per_node.
Proof.
  intros run.
  assert (Hframe : Forall2 (fun job job' =>
              set_cpus_total (set_nodes job' (nodes job)) (cpus_total job)
              = job /\ cpus_total job <= cpus_total job')
            pending_jobs (fst (run pending_jobs gpus_per_node))).
  { unfold run, _recompute_required_nodes_by_gpu_reservation.
    destruct (gpus_per_node <=? 0); simpl.
    - apply Forall_Forall2_diag, Forall_forall. intros job _.
      split; [now destruct job|lia].
    - apply for_each_job_related.
      + intros job. split; [now destruct job|lia].
      + intros job. split; [|apply gpu_reservation_body_step].
        destruct (gpu_reservation_body_raise gpus_per_node job)
          as (n1 & n2 & ->).
        apply (frame_trans job (raise_min_nodes n1 job));
          apply raise_min_nodes_frame. }
  split; [exact Hframe|]. split.
  - symmetry. exact (Forall2_length _ _ _ Hframe).
  - unfold run, _recompute_required_nodes_by_gpu_reservation.
    destruct (gpus_per_node <=? 0); simpl; [reflexivity|].
    apply for_each_job_idempotent. apply gpu_reservation_body_again.
Qed.

(** On nodes with at least one slot, the body of Pass 1 raises on the jobs
    with [cpus_min_per_node = 0] and on no other. *)
Lemma slots_reservation_body_raises_iff (node_slots : Z) (job : SlurmJob) :
  0 < node_slots ->
  (snd (slots_reservation_body node_slots job) = None
   <-> cpus_min_per_node job <> 0)
  /\ (snd (slots_reservation_body node_slots job) = Some ZeroDivisionError
      <-> cpus_min_per_node job = 0).
Proof.
  intros Hns.
  destruct (Z.lt_trichotomy (cpus_min_per_node job) 0) as [Hneg|[Hz|Hpos]].
  - assert (Hnone : snd (slots_reservation_body node_slots job) = None).
    { unfold slots_reservation_body.
      destruct (Z.geb_spec node_slots (cpus_min_per_node job)); [|lia].
      unfold py_mod. rewrite (proj2 (Z.eqb_neq _ 0)) by lia. simpl.
      pose proof (Z.mod_neg_bound node_slots _ Hneg).
      now rewrite py_ceil_div_nonzero by lia. }
    rewrite Hnone. split; split; (lia || discriminate || auto).
  - rewrite (slots_reservation_body_zero node_slots job Hz) by lia. simpl.
    split; split; (lia || discriminate || auto).
  - assert (Hnone : snd (slots_reservation_body node_slots job) = None).
    { destruct (Z.lt_ge_cases node_slots (cpus_min_per_node job)).
      - now rewrite slots_reservation_body_skip.
      - now rewrite slots_reservation_body_fits. }
    rewrite Hnone. split; split; (lia || discriminate || auto).
Qed.

Lemma slots_reservation_raises_cases (pending_jobs : list SlurmJob)
    (node_slots : Z) :
  0 < node_slots ->
  (snd (_recompute_required_nodes_by_slots_reservation pending_jobs
          node_slots) = None
   <-> Forall (fun job => cpus_min_per_node job <> 0) pending_jobs)
  /\ (forall e,
        snd (_recompute_required_nodes_by_slots_reservation pending_jobs
               node_slots) = Some e -> e = ZeroDivisionError).
Proof.
  intros Hns. unfold _recompute_required_nodes_by_slots_reservation. split.
  - rewrite for_each_job_completes_iff. apply Forall_iff. intros job.
    apply (slots_reservation_body_raises_iff node_slots job Hns).
  - intros e Hraise. apply for_each_job_raised in Hraise.
    apply Exists_exists in Hraise as (job & _ & Hjob).
    now apply (slots_reservation_body_exn node_slots job).
Qed.

(** X3.  On nodes with at least one slot, and with the operands of the
    divisions on the range where doubles are exact, Pass 1 completes
    exactly when no job has [cpus_min_per_node = 0], and raises
    [ZeroDivisionError] exactly when some job has; negative values do not
    make it raise. *)
Theorem slots_reservation_raises_iff (pending_jobs : list SlurmJob)
    (node_slots : Z) :
  0 < node_slots ->
  Forall (slots_in_float_range node_slots) pending_jobs ->
  (snd (_recompute_required_nodes_by_slots_reservation pending_jobs
          node_slots) = None
   <-> Forall (fun job => cpus_min_per_node job <> 0) pending_jobs)
  /\ (snd (_recompute_required_nodes_by_slots_reservation pending_jobs
             node_slots) = Some ZeroDivisionError
      <-> Exists (fun job => cpus_min_per_node job = 0) pending_jobs).
Proof.
  intros Hns _. unfold _recompute_required_nodes_by_slots_reservation.
  assert (Hnone : snd (for_each_job (slots_reservation_body node_slots)
                         pending_jobs) = None
                  <-> Forall (fun job => cpus_min_per_node job <> 0)
                        pending_jobs).
  { rewrite for_each_job_completes_iff. apply Forall_iff. intros job.
    apply (slots_reservation_body_raises_iff node_slots job Hns). }
  split; [exact Hnone|]. split.
  - intros Hraise. apply for_each_job_raised in Hraise.
    eapply Exists_impl; [exact Hraise|]. intros job Hjob. simpl in Hjob.
    now apply (slots_reservation_body_raises_iff node_slots job Hns).
  - intros Hex. apply for_each_job_raises.
    + intros job e. apply slots_reservation_body_exn.
    + eapply Exists_impl; [exact Hex|]. intros job Hz. simpl in Hz.
      now apply (slots_reservation_body_raises_iff node_slots job Hns).
Qed.

Lemma slots_reservation_raises_iff_example :
  0 < 4
  /\ Forall (slots_in_float_range 4) [job_slots; job_uneven]
  /\ Forall (slots_in_float_range 4) [job_slots; job_no_min_cpus]
  /\ snd (_recompute_required_nodes_by_slots_reservation
            [job_slots; job_uneven] 4) = None
  /\ snd (_recompute_required_nodes_by_slots_reservation
            [job_slots; job_no_min_cpus] 4) = Some ZeroDivisionError.
Proof.
  assert (H : 0 < 4) by lia.
  assert (H1 : Forall (slots_in_float_range 4) [job_slots; job_uneven])
    by (repeat constructor; simpl; lia).
  assert (H2 : Forall (slots_in_float_range 4) [job_slots; job_no_min_cpus])
    by (repeat constructor; simpl; lia).
  split; [exact H|]. split; [exact H1|]. split; [exact H2|]. split.
  - apply (proj1 (slots_reservation_raises_iff [job_slots; job_uneven] 4
                    H H1)).
    repeat constructor; discriminate.
  - apply (proj2 (slots_reservation_raises_iff
                    [job_slots; job_no_min_cpus] 4 H H2)).
    apply Exists_cons_tl, Exists_cons_hd. reflexivity.
Defined.

(** X4.  Jobs that need more slots on a node than a node has are left as
    the scheduler reported them, and Pass 1 completes on them. *)
Theorem slots_reservation_skips_oversized (pending_jobs : list SlurmJob)
    (node_slots : Z) :
  Forall (fun job => node_slots < cpus_min_per_node job) pending_jobs ->
  _recompute_required_nodes_by_slots_reservation pending_jobs node_slots
  = (pending_jobs, None).
Proof.
  intros Hall. unfold _recompute_required_nodes_by_slots_reservation.
  rewrite for_each_job_completes.
  - f_equal. rewrite <- (map_id pending_jobs) at 2. apply map_ext_Forall.
    eapply Forall_impl; [exact Hall|]. intros job Hlt. simpl in *.
    now rewrite slots_reservation_body_skip.
  - eapply Forall_impl; [exact Hall|]. intros job Hlt. simpl in *.
    now rewrite slots_reservation_body_skip.
Qed.

Lemma slots_reservation_skips_oversized_example :
  Forall (fun job => 4 < cpus_min_per_node job) [job_5_slots]
  /\ _recompute_required_nodes_by_slots_reservation [job_5_slots] 4
     = ([job_5_slots], None).
Proof.
  assert (H : Forall (fun job => 4 < cpus_min_per_node job) [job_5_slots])
    by (repeat constructor; simpl; lia).
  split; [exact H|].
  exact (slots_reservation_skips_oversized [job_5_slots] 4 H).
Defined.

(** With a positive [gpus_per_node] the body of Pass 2 raises on the jobs
    whose per-task request exceeds a node and on no other. *)
Lemma gpu_reservation_body_raises_iff (gpus_per_node : Z) (job : SlurmJob) :
  0 < gpus_per_node ->
  snd (gpu_reservation_body gpus_per_node job) = None
  <-> gpus_per_task_fit gpus_per_node job.
Proof.
  intros Hpos. unfold gpus_per_task_fit, gpu_reservation_body.
  rewrite gpus_per_job_case_formula by lia.
  set (job1 := raise_min_nodes _ job).
  assert (Htres : tres_per_task job1 = tres_per_task job)
    by apply raise_min_nodes_tres.
  unfold gpus_per_task_case. rewrite Htres.
  destruct (tres_per_task job !! "gpu"%string) as [g|] eqn:Hentry.
  - destruct (decide (g = 0)) as [->|Hnz].
    + unfold gpu_request. rewrite Hentry. simpl.
      split; [intros _ g' [= <-]; lia|reflexivity].
    + rewrite (gpu_request_lookup _ g Hentry Hnz).
      unfold py_floordiv. rewrite (proj2 (Z.eqb_neq g 0) Hnz). simpl.
      destruct (Z.le_gt_cases g gpus_per_node) as [Hle|Hgt].
      * assert (gpus_per_node / g <> 0).
        { destruct (Z.lt_trichotomy g 0) as [Hneg|[?|Hgpos]]; [|lia|].
          - pose proof (Z.div_mod gpus_per_node g Hnz).
            pose proof (Z.mod_neg_bound gpus_per_node g Hneg). nia.
          - assert (1 <= gpus_per_node / g)
              by (apply Z.div_le_lower_bound; lia).
            lia. }
        rewrite py_ceil_div_nonzero by assumption. simpl.
        split; [intros _ g' [= <-]; exact Hle|reflexivity].
      * rewrite Z.div_small by lia. simpl.
        split; [discriminate|]. intros Hall. specialize (Hall g eq_refl). lia.
  - unfold gpu_request. rewrite Hentry. simpl.
    split; [intros _ g' Hg'; discriminate|reflexivity].
Qed.

(** X5.  With [gpus_per_node > 0], and with the operands of the
    divisions on the range where doubles are exact, Pass 2 completes
    exactly when no job asks for more GPUs per task than a node has;
    otherwise it raises [ZeroDivisionError].  A per-task request of zero or
    below never makes it raise, and the per-job request never does. *)
Theorem gpu_reservation_raises_iff (pending_jobs : list SlurmJob)
    (gpus_per_node : Z) :
  0 < gpus_per_node ->
  Forall (gpu_in_float_range gpus_per_node) pending_jobs ->
  (snd (_recompute_required_nodes_by_gpu_reservation pending_jobs
          gpus_per_node) = None
   <-> Forall (gpus_per_task_fit gpus_per_node) pending_jobs)
  /\ (~ Forall (gpus_per_task_fit gpus_per_node) pending_jobs ->
      snd (_recompute_required_nodes_by_gpu_reservation pending_jobs
             gpus_per_node) = Some ZeroDivisionError).
Proof.
  intros Hpos _. set (fits := gpus_per_task_fit gpus_per_node).
  unfold _recompute_required_nodes_by_gpu_reservation.
  destruct (Z.leb_spec gpus_per_node 0); [lia|].
  assert (Hnone : snd (for_each_job (gpu_reservation_body gpus_per_node)
                         pending_jobs) = None
                  <-> Forall fits pending_jobs).
  { rewrite for_each_job_completes_iff. apply Forall_iff. intros job.
    apply (gpu_reservation_body_raises_iff gpus_per_node job Hpos). }
  split; [exact Hnone|].
  intros Hnot.
  destruct (snd (for_each_job (gpu_reservation_body gpus_per_node)
                   pending_jobs)) as [e|] eqn:Hsnd.
  - f_equal. apply for_each_job_raised in Hsnd.
    apply Exists_exists in Hsnd as (job & _ & Hjob).
    now apply (gpu_reservation_body_exn gpus_per_node job).
  - exfalso. apply Hnot, Hnone. reflexivity.
Qed.

Lemma gpu_reservation_raises_iff_example :
  0 < 4
  /\ Forall (gpu_in_float_range 4) [job_gpus; job_gpus_per_task]
  /\ Forall (gpu_in_float_range 4) [job_gpus; job_gpus_per_task_8]
  /\ snd (_recompute_required_nodes_by_gpu_reservation
            [job_gpus; job_gpus_per_task] 4) = None
  /\ snd (_recompute_required_nodes_by_gpu_reservation
            [job_gpus; job_gpus_per_task_8] 4) = Some ZeroDivisionError.
Proof.
  assert (H : 0 < 4) by lia.
  assert (H1 : Forall (gpu_in_float_range 4) [job_gpus; job_gpus_per_task])
    by (repeat (constructor; [solve_gpu_in_float_range|]); constructor).
  assert (H2 : Forall (gpu_in_float_range 4)
                 [job_gpus; job_gpus_per_task_8])
    by (repeat (constructor; [solve_gpu_in_float_range|]); constructor).
  split; [exact H|]. split; [exact H1|]. split; [exact H2|]. split.
  - apply (proj1 (gpu_reservation_raises_iff
                    [job_gpus; job_gpus_per_task] 4 H H1)).
    repeat constructor; intros g Hg; vm_compute in Hg;
      [discriminate|injection Hg as <-; lia].
  - apply (proj2 (gpu_reservation_raises_iff
                    [job_gpus; job_gpus_per_task_8] 4 H H2)).
    intros Hall. inversion Hall as [|? ? _ Hrest]; subst.
    inversion Hrest as [|? ? Hjob _]; subst.
    specialize (Hjob 8 eq_refl). lia.
Defined.

(** X6.  Pass 2 leaves alone every job that has no "gpu" request per job
    or per task (an entry of zero counts as none), whatever
    [gpus_per_node] is and whatever [tres_per_node] holds: that mapping is
    never read. *)
Theorem gpu_reservation_without_request (pending_jobs : list SlurmJob)
    (gpus_per_node : Z) :
  Forall (fun job => gpu_request (tres_per_job job) = None
                     /\ gpu_request (tres_per_task job) = None)
    pending_jobs ->
  _recompute_required_nodes_by_gpu_reservation pending_jobs gpus_per_node
  = (pending_jobs, None).
Proof.
  intros Hall. unfold _recompute_required_nodes_by_gpu_reservation.
  destruct (gpus_per_node <=? 0); [reflexivity|].
  assert (Hbody : Forall (fun job =>
            gpu_reservation_body gpus_per_node job = (job, None))
            pending_jobs).
  { eapply Forall_impl; [exact Hall|]. intros job [Hj Ht].
    unfold gpu_reservation_body, gpus_per_job_case, gpus_per_task_case.
    now rewrite Hj, Ht. }
  rewrite for_each_job_completes.
  - f_equal. rewrite <- (map_id pending_jobs) at 2. apply map_ext_Forall.
    eapply Forall_impl; [exact Hbody|]. intros job Hjob. simpl.
    now rewrite Hjob.
  - eapply Forall_impl; [exact Hbody|]. intros job Hjob. simpl.
    now rewrite Hjob.
Qed.

Lemma gpu_reservation_without_request_example :
  Forall (fun job => gpu_request (tres_per_job job) = None
                     /\ gpu_request (tres_per_task job) = None)
    [job_slots; job_no_gpu_request]
  /\ _recompute_required_nodes_by_gpu_reservation
       [job_slots; job_no_gpu_request] 4
     = ([job_slots; job_no_gpu_request], None).
Proof.
  assert (H : Forall (fun job => gpu_request (tres_per_job job) = None
                                 /\ gpu_request (tres_per_task job) = None)
                [job_slots; job_no_gpu_request])
    by (repeat constructor).
  split; [exact H|].
  exact (gpu_reservation_without_request [job_slots; job_no_gpu_request] 4 H).
Defined.

(** X7.  For a job with [0 < cpus_min_per_node <= node_slots], the slots
    Pass 1 counts on a node are the largest multiple of
    [cpus_min_per_node] that a node holds, the node count it leaves offers
    at least [cpus_total] such slots, and a node count it raised is the
    least that does.  The operands of the division are on the range where
    doubles are exact. *)
Theorem slots_reservation_enough_nodes (node_slots : Z) (job : SlurmJob) :
  slots_in_float_range node_slots job ->
  0 < cpus_min_per_node job -> cpus_min_per_node job <= node_slots ->
  let usable := node_slots - node_slots mod cpus_min_per_node job in
  let job' := fst (slots_reservation_body node_slots job) in
  (cpus_min_per_node job | usable)
  /\ node_slots - cpus_min_per_node job < usable <= node_slots
  /\ cpus_total job <= nodes job' * usable
  /\ (nodes job < nodes job' -> (nodes job' - 1) * usable < cpus_total job).
Proof.
  intros _ Hpos Hle usable job'. subst job'.
  rewrite slots_reservation_body_fits by assumption. simpl. fold usable.
  assert (Hnz : cpus_min_per_node job <> 0) by lia.
  pose proof (Z.div_mod node_slots (cpus_min_per_node job) Hnz) as Hdm.
  pose proof (Z.mod_pos_bound node_slots _ Hpos) as Hm.
  pose proof (usable_slots_positive node_slots _ Hpos Hle) as Hu.
  fold usable in Hu.
  assert (Hupos : 0 < usable) by lia.
  pose proof (ceil_quot_bounds (cpus_total job) usable Hupos) as Hc.
  split; [exists (node_slots / cpus_min_per_node job); unfold usable; lia|].
  split; [unfold usable; lia|].
  split; [nia|].
  intros Hraise.
  replace (Z.max (ceil_quot (cpus_total job) usable) (nodes job))
    with (ceil_quot (cpus_total job) usable) by lia.
  nia.
Qed.

Lemma slots_reservation_enough_nodes_example :
  slots_in_float_range 4 job_slots
  /\ 0 < cpus_min_per_node job_slots /\ cpus_min_per_node job_slots <= 4
  /\ nodes (fst (slots_reservation_body 4 job_slots)) = 5
  /\ cpus_total job_slots
     <= nodes (fst (slots_reservation_body 4 job_slots)) * 3.
Proof.
  assert (H0 : slots_in_float_range 4 job_slots)
    by (repeat constructor; simpl; lia).
  assert (H1 : 0 < cpus_min_per_node job_slots) by (simpl; lia).
  assert (H2 : cpus_min_per_node job_slots <= 4) by (simpl; lia).
  split; [exact H0|]. split; [exact H1|]. split; [exact H2|].
  split; [reflexivity|].
  exact (proj1 (proj2 (proj2
           (slots_reservation_enough_nodes 4 job_slots H0 H1 H2)))).
Defined.

(** X8.  With [gpus_per_node > 0], when the body of Pass 2 completes on a
    job, the nodes it leaves hold the GPUs asked per job, and, for a
    per-task request of [g] GPUs with [0 < g <= gpus_per_node], they hold
    all the tasks at [floor(gpus_per_node / g)] tasks a node.  The operands
    of the divisions are on the range where doubles are exact. *)
Theorem gpu_reservation_enough_nodes (gpus_per_node : Z) (job : SlurmJob) :
  0 < gpus_per_node ->
  gpu_in_float_range gpus_per_node job ->
  snd (gpu_reservation_body gpus_per_node job) = None ->
  let job' := fst (gpu_reservation_body gpus_per_node job) in
  (forall g, gpu_request (tres_per_job job) = Some g ->
             g <= nodes job' * gpus_per_node)
  /\ (forall g, gpu_request (tres_per_task job) = Some g -> 0 < g ->
                tasks job <= nodes job' * (gpus_per_node / g)).
Proof.
  intros Hpos _ Hdone job'.
  assert (Hfit : forall g, gpu_request (tres_per_task job) = Some g ->
                           gpus_per_node / g <> 0).
  { intros g Hg. apply gpu_request_nonzero in Hg as [Hentry Hnz].
    pose proof (proj1 (gpu_reservation_body_raises_iff gpus_per_node job Hpos)
                  Hdone g Hentry) as Hle.
    destruct (Z.lt_trichotomy g 0) as [Hneg|[?|Hgpos]]; [|lia|].
    - pose proof (Z.div_mod gpus_per_node g Hnz).
      pose proof (Z.mod_neg_bound gpus_per_node g Hneg). nia.
    - assert (1 <= gpus_per_node / g) by (apply Z.div_le_lower_bound; lia).
      lia. }
  subst job'. unfold gpu_reservation_body.
  rewrite gpus_per_job_case_formula by lia.
  set (n1 := spec_min_nodes_per_job gpus_per_node job).
  destruct (raise_min_nodes_tres n1 job) as [Htres Htasks].
  rewrite gpus_per_task_case_formula by now rewrite Htres.
  simpl. rewrite !raise_min_nodes_nodes.
  split.
  - intros g Hg. unfold n1, spec_min_nodes_per_job. rewrite Hg.
    pose proof (ceil_quot_bounds g gpus_per_node Hpos). nia.
  - intros g Hg Hgpos. unfold spec_min_nodes_per_task.
    rewrite Htres, Htasks, Hg.
    assert (0 < gpus_per_node / g).
    { specialize (Hfit g Hg).
      assert (Hge : 0 <= gpus_per_node) by lia.
      pose proof (Z.div_pos gpus_per_node g Hge Hgpos). lia. }
    pose proof (ceil_quot_bounds (tasks job) (gpus_per_node / g) H).
    nia.
Qed.

Lemma gpu_reservation_enough_nodes_example :
  0 < 4 /\ gpu_in_float_range 4 job_gpus_both
  /\ snd (gpu_reservation_body 4 job_gpus_both) = None
  /\ nodes (fst (gpu_reservation_body 4 job_gpus_both)) = 5
  /\ (forall g, gpu_request (tres_per_task job_gpus_both) = Some g -> 0 < g ->
                tasks job_gpus_both
                <= nodes (fst (gpu_reservation_body 4 job_gpus_both))
                   * (4 / g)).
Proof.
  assert (H1 : 0 < 4) by lia.
  assert (H0 : gpu_in_float_range 4 job_gpus_both)
    by solve_gpu_in_float_range.
  assert (H2 : snd (gpu_reservation_body 4 job_gpus_both) = None)
    by reflexivity.
  split; [exact H1|]. split; [exact H0|]. split; [exact H2|].
  split; [reflexivity|].
  exact (proj2 (gpu_reservation_enough_nodes 4 job_gpus_both H1 H0 H2)).
Defined.

(** * Further properties of [get_pending_jobs_info] *)

Lemma reconciled_from_refl (job : SlurmJob) : reconciled_from job job.
Proof. unfold reconciled_from. split; [now destruct job|lia]. Qed.

Lemma reconciled_from_trans (a b c : SlurmJob) :
  reconciled_from a b -> reconciled_from b c -> reconciled_from a c.
Proof.
  intros (Hab & ? & ?) (Hbc & ? & ?). unfold reconciled_from.
  split; [exact (frame_trans a b c Hab Hbc)|lia].
Qed.

Lemma slots_reservation_body_reconciled (node_slots : Z) (job : SlurmJob) :
  reconciled_from job (fst (slots_reservation_body node_slots job)).
Proof.
  destruct (slots_reservation_body_frame node_slots job) as (n & Hn & ->).
  unfold reconciled_from. simpl. split; [now destruct job|lia].
Qed.

Lemma gpu_reservation_body_reconciled (gpus_per_node : Z) (job : SlurmJob) :
  reconciled_from job (fst (gpu_reservation_body gpus_per_node job)).
Proof.
  pose proof (gpu_reservation_body_step gpus_per_node job)
    as (Hn & Hc & _ & _).
  destruct (gpu_reservation_body_raise gpus_per_node job) as (n1 & n2 & Heq).
  rewrite Heq in *. split; [|now split].
  apply (frame_trans job (raise_min_nodes n1 job));
    apply raise_min_nodes_frame.
Qed.

(** The jobs the two passes leave, related to the jobs reported. *)
Lemma recompute_required_nodes_reconciled (max_slots_filter : option Z)
    (max_gpus_per_node : Z) (pending_jobs : list SlurmJob) :
  Forall2 reconciled_from pending_jobs
    (fst (recompute_required_nodes max_slots_filter max_gpus_per_node
            pending_jobs)).
Proof.
  assert (Hrefl : forall jobs, Forall2 reconciled_from jobs jobs).
  { intros jobs. apply Forall_Forall2_diag, Forall_forall.
    intros; apply reconciled_from_refl. }
  assert (H1 : forall ns, Forall2 reconciled_from pending_jobs
            (fst (_recompute_required_nodes_by_slots_reservation
                    pending_jobs ns))).
  { intros ns. apply for_each_job_related;
      auto using reconciled_from_refl, slots_reservation_body_reconciled. }
  unfold recompute_required_nodes.
  destruct (truthy_opt max_slots_filter); [|apply Hrefl].
  specialize (H1 (default 0 max_slots_filter)).
  destruct (_recompute_required_nodes_by_slots_reservation _ _)
    as [jobs1 [e|]]; simpl in *; [exact H1|].
  eapply Forall2_trans; [exact reconciled_from_trans|exact H1|].
  unfold _recompute_required_nodes_by_gpu_reservation.
  destruct (max_gpus_per_node <=? 0); simpl; [apply Hrefl|].
  apply for_each_job_related;
    auto using reconciled_from_refl, gpu_reservation_body_reconciled.
Qed.

Lemma list_filter_sublist {A} (f : A -> bool) (l : list A) :
  sublist (List.filter f l) l.
Proof.
  induction l as [|x l IH]; simpl; [constructor|].
  destruct (f x); now constructor.
Qed.

Lemma filter_pending_jobs_kept (max_slots_filter max_nodes_filter : option Z)
    (filter_by_pending_reasons : option (list string))
    (pending_jobs : list SlurmJob) :
  sublist (filter_pending_jobs max_slots_filter max_nodes_filter
             filter_by_pending_reasons pending_jobs) pending_jobs
  /\ Forall (fun job =>
        job_is_kept max_slots_filter max_nodes_filter
          filter_by_pending_reasons job = true)
      (filter_pending_jobs max_slots_filter max_nodes_filter
         filter_by_pending_reasons pending_jobs).
Proof.
  unfold filter_pending_jobs.
  destruct (_ || _ || _) eqn:Hany.
  - rewrite filter_loop_spec. simpl. split; [apply list_filter_sublist|].
    apply Forall_forall. intros job Hin.
    apply list_elem_of_In, filter_In in Hin. apply Hin.
  - split; [reflexivity|].
    apply orb_false_elim in Hany as [Hany Hmn].
    apply orb_false_elim in Hany as [Hms Hr].
    apply Forall_forall. intros job _. unfold job_is_kept.
    now rewrite Hms, Hmn, Hr.
Qed.

(** X9.  When [get_pending_jobs_info] returns, the jobs it returns are,
    in order, some of the reconciled jobs; each differs from a reported job
    in [nodes] and [cpus_total] at most, neither lower than reported; and
    each is within every ceiling supplied, judged on the reconciled
    values: [cpus_min_per_node <= max_slots_filter],
    [nodes <= max_nodes_filter], reason among the given ones. *)
Theorem pending_jobs_returned (max_slots_filter max_nodes_filter : option Z)
    (filter_by_pending_reasons : option (list string))
    (max_gpus_per_node : Z) (pending_jobs returned : list SlurmJob) :
  get_pending_jobs_info max_slots_filter max_nodes_filter
    filter_by_pending_reasons max_gpus_per_node pending_jobs = Ok returned ->
  sublist returned
    (fst (recompute_required_nodes max_slots_filter max_gpus_per_node
            pending_jobs))
  /\ Forall (fun job' => exists job,
               job ∈ pending_jobs /\ reconciled_from job job') returned
  /\ Forall (fun job' =>
        (forall m, max_slots_filter = Some m -> m <> 0 ->
                   cpus_min_per_node job' <= m)
        /\ (forall m, max_nodes_filter = Some m -> m <> 0 ->
                      nodes job' <= m)
        /\ (forall r rs, filter_by_pending_reasons = Some (r :: rs) ->
                         pending_reason job' ∈ r :: rs))
      returned.
Proof.
  unfold get_pending_jobs_info.
  pose proof (recompute_required_nodes_reconciled max_slots_filter
                max_gpus_per_node pending_jobs) as Hrec.
  destruct (recompute_required_nodes _ _ _) as [jobs [e|]];
    [discriminate|].
  simpl in Hrec. intros [= <-].
  destruct (filter_pending_jobs_kept max_slots_filter max_nodes_filter
              filter_by_pending_reasons jobs) as [Hsub Hkept].
  split; [exact Hsub|]. split.
  - apply Forall_forall. intros job' Hin.
    apply (sublist_subseteq _ _ Hsub) in Hin.
    apply list_elem_of_lookup in Hin as [i Hi].
    destruct (Forall2_lookup_r _ _ _ _ _ Hrec Hi) as (job & Hjob & Hrel).
    exists job. split; [|exact Hrel]. now apply list_elem_of_lookup_2 with i.
  - eapply Forall_impl; [exact Hkept|]. intros job' Hk. simpl in Hk.
    unfold job_is_kept in Hk.
    repeat split.
    + intros m -> Hm. simpl in Hk. unfold truthy in Hk.
      rewrite (proj2 (Z.eqb_neq m 0) Hm) in Hk. simpl in Hk.
      destruct (Z.gtb_spec (cpus_min_per_node job') m); [discriminate|lia].
    + intros m -> Hm.
      destruct (truthy_opt max_slots_filter && _); [discriminate|].
      simpl in Hk. unfold truthy in Hk.
      rewrite (proj2 (Z.eqb_neq m 0) Hm) in Hk. simpl in Hk.
      destruct (Z.gtb_spec (nodes job') m); [discriminate|lia].
    + intros r rs ->.
      destruct (truthy_opt max_slots_filter && _); [discriminate|].
      destruct (truthy_opt max_nodes_filter && _); [discriminate|].
      simpl in Hk.
      destruct (bool_decide_reflect (pending_reason job' ∈ r :: rs));
        [assumption|discriminate].
Qed.

Lemma pending_jobs_returned_example :
  get_pending_jobs_info (Some 4) (Some 4) (Some ["Resources"%string]) 4
    [job_slots; job_gpus; job_licenses; job_5_slots]
  = Ok [set_cpus_total (set_nodes job_gpus 3) 3]
  /\ Forall (fun job' => exists job,
               job ∈ [job_slots; job_gpus; job_licenses; job_5_slots]
               /\ reconciled_from job job')
       [set_cpus_total (set_nodes job_gpus 3) 3].
Proof.
  assert (H : get_pending_jobs_info (Some 4) (Some 4)
                (Some ["Resources"%string]) 4
                [job_slots; job_gpus; job_licenses; job_5_slots]
              = Ok [set_cpus_total (set_nodes job_gpus 3) 3])
    by reflexivity.
  split; [exact H|].
  exact (proj1 (proj2 (pending_jobs_returned _ _ _ _ _ _ H))).
Defined.

Lemma slots_reservation_fits_all (node_slots : Z)
    (pending_jobs : list SlurmJob) :
  Forall (fun job => 0 < cpus_min_per_node job <= node_slots) pending_jobs ->
  _recompute_required_nodes_by_slots_reservation pending_jobs node_slots
  = (map (spec_slots_reconciled node_slots) pending_jobs, None).
Proof.
  intros Hfit. unfold _recompute_required_nodes_by_slots_reservation.
  rewrite for_each_job_completes.
  - f_equal. apply map_ext_Forall.
    eapply Forall_impl; [exact Hfit|]. intros job [Hpos Hle]. simpl.
    now rewrite slots_reservation_body_fits.
  - eapply Forall_impl; [exact Hfit|]. intros job [Hpos Hle]. simpl.
    now rewrite slots_reservation_body_fits.
Qed.

Lemma gpus_per_task_fit_quotient (gpus_per_node : Z) (job : SlurmJob) :
  0 < gpus_per_node -> gpus_per_task_fit gpus_per_node job ->
  forall g, gpu_request (tres_per_task job) = Some g ->
            gpus_per_node / g <> 0.
Proof.
  intros Hpos Hfit g Hg. apply gpu_request_nonzero in Hg as [Hentry Hnz].
  specialize (Hfit g Hentry).
  destruct (Z.lt_trichotomy g 0) as [Hneg|[?|Hgpos]]; [|lia|].
  - pose proof (Z.div_mod gpus_per_node g Hnz).
    pose proof (Z.mod_neg_bound gpus_per_node g Hneg). nia.
  - assert (1 <= gpus_per_node / g) by (apply Z.div_le_lower_bound; lia).
    lia.
Qed.

(** The node count the body of Pass 2 leaves, for a job it completes on. *)
Lemma gpu_reservation_body_nodes (gpus_per_node : Z) (job : SlurmJob) :
  0 < gpus_per_node -> gpus_per_task_fit gpus_per_node job ->
  snd (gpu_reservation_body gpus_per_node job) = None
  /\ nodes (fst (gpu_reservation_body gpus_per_node job))
     = Z.max (nodes job)
         (Z.max (spec_min_nodes_per_job gpus_per_node job)
                (spec_min_nodes_per_task gpus_per_node job)).
Proof.
  intros Hpos Hfit.
  split; [now apply gpu_reservation_body_raises_iff|].
  pose proof (gpus_per_task_fit_quotient gpus_per_node job Hpos Hfit) as Hq.
  unfold gpu_reservation_body.
  rewrite gpus_per_job_case_formula by lia.
  set (n1 := spec_min_nodes_per_job gpus_per_node job).
  destruct (raise_min_nodes_tres n1 job) as [Htres Htasks].
  rewrite gpus_per_task_case_formula by now rewrite Htres.
  simpl. rewrite !raise_min_nodes_nodes.
  unfold spec_min_nodes_per_task. rewrite Htres, Htasks.
  destruct (gpu_request (tres_per_task job));
    [|rewrite raise_min_nodes_nodes]; lia.
Qed.

(** X10.  On jobs with [0 < cpus_min_per_node <= node_slots] whose
    per-task GPU requests fit a node of [gpus_per_node > 0] GPUs, the two
    passes complete, and the node count of each job ends as the largest of
    four numbers: the reported count, the nodes its CPUs need, the nodes
    its GPUs per job need and the nodes its GPUs per task need.  The
    operands of the divisions of both passes are on the range where doubles
    are exact. *)
Theorem reconciled_nodes_maximum (node_slots max_gpus_per_node : Z)
    (pending_jobs : list SlurmJob) :
  0 < node_slots -> 0 < max_gpus_per_node ->
  Forall (slots_in_float_range node_slots) pending_jobs ->
  Forall (gpu_in_float_range max_gpus_per_node) pending_jobs ->
  Forall (fun job => 0 < cpus_min_per_node job <= node_slots
                     /\ gpus_per_task_fit max_gpus_per_node job)
    pending_jobs ->
  exists jobs',
    recompute_required_nodes (Some node_slots) max_gpus_per_node pending_jobs
    = (jobs', None)
    /\ Forall2 (fun job job' =>
         nodes job'
         = Z.max (Z.max (nodes job)
                    (ceil_quot (cpus_total job)
                       (spec_usable_slots node_slots job)))
             (Z.max (spec_min_nodes_per_job max_gpus_per_node job)
                    (spec_min_nodes_per_task max_gpus_per_node job)))
       pending_jobs jobs'.
Proof.
  intros Hns Hgpu _ _ Hall.
  set (pass2 := fun job =>
         fst (gpu_reservation_body max_gpus_per_node
                (spec_slots_reconciled node_slots job))).
  exists (map pass2 pending_jobs). split.
  - unfold recompute_required_nodes. simpl. unfold truthy.
    rewrite (proj2 (Z.eqb_neq node_slots 0)) by lia. simpl.
    rewrite slots_reservation_fits_all
      by (eapply Forall_impl; [exact Hall|]; now intros job [? _]).
    unfold _recompute_required_nodes_by_gpu_reservation.
    destruct (Z.leb_spec max_gpus_per_node 0); [lia|].
    rewrite for_each_job_completes.
    + now rewrite map_map.
    + apply Forall_forall. intros job1 Hin.
      apply list_elem_of_In, in_map_iff in Hin as (job & <- & Hin).
      apply list_elem_of_In in Hin.
      apply (proj1 (Forall_forall _ _) Hall) in Hin as [_ Hfit].
      now apply gpu_reservation_body_nodes.
  - apply Forall2_fmap_r, Forall_Forall2_diag.
    eapply Forall_impl; [exact Hall|]. intros job [_ Hfit]. simpl.
    unfold pass2.
    destruct (gpu_reservation_body_nodes max_gpus_per_node
                (spec_slots_reconciled node_slots job) Hgpu Hfit)
      as [_ ->].
    unfold spec_min_nodes_per_job, spec_min_nodes_per_task,
      spec_slots_reconciled. simpl.
    destruct (gpu_request (tres_per_job job)),
             (gpu_request (tres_per_task job)); lia.
Qed.

Lemma reconciled_nodes_maximum_example :
  0 < 4 /\ 0 < 4
  /\ Forall (slots_in_float_range 4) [job_slots; job_gpus_both]
  /\ Forall (gpu_in_float_range 4) [job_slots; job_gpus_both]
  /\ Forall (fun job => 0 < cpus_min_per_node job <= 4
                        /\ gpus_per_task_fit 4 job)
       [job_slots; job_gpus_both]
  /\ exists jobs',
       recompute_required_nodes (Some 4) 4 [job_slots; job_gpus_both]
       = (jobs', None)
       /\ nodes <$> jobs' = [5; 5].
Proof.
  assert (H1 : 0 < 4) by lia.
  assert (Hs : Forall (slots_in_float_range 4) [job_slots; job_gpus_both])
    by (repeat constructor; simpl; lia).
  assert (Hg : Forall (gpu_in_float_range 4) [job_slots; job_gpus_both])
    by (repeat (constructor; [solve_gpu_in_float_range|]); constructor).
  assert (H2 : Forall (fun job => 0 < cpus_min_per_node job <= 4
                                  /\ gpus_per_task_fit 4 job)
                 [job_slots; job_gpus_both]).
  { repeat constructor; simpl; try lia; intros g Hentry;
      vm_compute in Hentry;
      [discriminate|injection Hentry as <-; lia]. }
  split; [exact H1|]. split; [exact H1|]. split; [exact Hs|].
  split; [exact Hg|]. split; [exact H2|].
  destruct (reconciled_nodes_maximum 4 4 [job_slots; job_gpus_both]
              H1 H1 Hs Hg H2)
    as (jobs' & Hrun & Hnodes).
  exists jobs'. split; [exact Hrun|].
  vm_compute in Hrun. injection Hrun as <-. reflexivity.
Defined.

(** Pass 1 keeps the requests, so a list fits a node before it exactly
    when it does after. *)
Lemma gpus_per_task_fit_reconciled (gpus_per_node : Z)
    (jobs jobs' : list SlurmJob) :
  Forall2 reconciled_from jobs jobs' ->
  Forall (gpus_per_task_fit gpus_per_node) jobs
  <-> Forall (gpus_per_task_fit gpus_per_node) jobs'.
Proof.
  induction 1 as [|job job' jobs jobs' (Hframe & _ & _) _ IH].
  - split; constructor.
  - assert (Heq : tres_per_task job' = tres_per_task job)
      by (rewrite <- Hframe; reflexivity).
    rewrite !Forall_cons, IH. unfold gpus_per_task_fit. now rewrite Heq.
Qed.

(** X11.  With [max_slots_filter > 0], and with the operands of the
    divisions of the passes that run on the range where doubles are exact,
    [get_pending_jobs_info] returns exactly when no job has
    [cpus_min_per_node = 0] and, if [max_gpus_per_node > 0], no job asks for
    more GPUs per task than a node has; otherwise it raises, and what it
    raises is [ZeroDivisionError]. *)
Theorem pending_jobs_completes_iff (node_slots : Z)
    (max_nodes_filter : option Z)
    (filter_by_pending_reasons : option (list string))
    (max_gpus_per_node : Z) (pending_jobs : list SlurmJob) :
  0 < node_slots ->
  Forall (slots_in_float_range node_slots) pending_jobs ->
  (0 < max_gpus_per_node ->
   Forall (gpu_in_float_range max_gpus_per_node) pending_jobs) ->
  let run := get_pending_jobs_info (Some node_slots) max_nodes_filter
               filter_by_pending_reasons max_gpus_per_node pending_jobs in
  ((exists returned, run = Ok returned)
   <-> Forall (fun job => cpus_min_per_node job <> 0) pending_jobs
       /\ (0 < max_gpus_per_node ->
           Forall (gpus_per_task_fit max_gpus_per_node) pending_jobs))
  /\ (forall e, run = Raise e -> e = ZeroDivisionError).
Proof.
  intros Hns _ _ run. subst run.
  unfold get_pending_jobs_info, recompute_required_nodes. simpl.
  unfold truthy. rewrite (proj2 (Z.eqb_neq node_slots 0)) by lia. simpl.
  pose proof (slots_reservation_raises_cases pending_jobs node_slots Hns)
    as [Hnone Hraise].
  assert (Hrec : Forall2 reconciled_from pending_jobs
            (fst (_recompute_required_nodes_by_slots_reservation
                    pending_jobs node_slots))).
  { apply for_each_job_related;
      auto using reconciled_from_refl, slots_reservation_body_reconciled. }
  destruct (_recompute_required_nodes_by_slots_reservation pending_jobs
              node_slots) as [jobs1 [e1|]] eqn:Hpass1; simpl in *.
  - split.
    + split; [intros [returned Hr]; discriminate|].
      intros [Hall _]. apply Hnone in Hall. discriminate.
    + intros e [= <-]. now apply Hraise.
  - pose proof (gpus_per_task_fit_reconciled max_gpus_per_node _ _ Hrec)
      as Hfit.
    assert (Hcpm : Forall (fun job => cpus_min_per_node job <> 0)
                     pending_jobs) by now apply Hnone.
    unfold _recompute_required_nodes_by_gpu_reservation.
    destruct (Z.leb_spec max_gpus_per_node 0) as [Hoff|Hon].
    + split; [|discriminate].
      split; [intros _; split; [exact Hcpm|lia]|]. intros _. now eexists.
    + pose proof (for_each_job_completes_iff
                    (gpu_reservation_body max_gpus_per_node) jobs1) as Hdone.
      destruct (for_each_job (gpu_reservation_body max_gpus_per_node) jobs1)
        as [jobs2 [e2|]] eqn:Hpass2; simpl in *.
      * split.
        -- split; [intros [returned Hr]; discriminate|].
           intros [_ Hall]. specialize (Hall Hon). apply Hfit in Hall.
           assert (Hbody : Forall (fun job =>
                     snd (gpu_reservation_body max_gpus_per_node job) = None)
                     jobs1).
           { eapply Forall_impl; [exact Hall|]. intros job Hj.
             now apply gpu_reservation_body_raises_iff. }
           apply Hdone in Hbody. discriminate.
        -- intros e [= <-].
           assert (Hsnd : snd (for_each_job
                     (gpu_reservation_body max_gpus_per_node) jobs1)
                     = Some e2) by now rewrite Hpass2.
           apply for_each_job_raised in Hsnd.
           apply Exists_exists in Hsnd as (job & _ & Hjob).
           now apply (gpu_reservation_body_exn max_gpus_per_node job).
      * split; [|discriminate].
        split; [|intros _; now eexists].
        intros _. split; [exact Hcpm|]. intros _. apply Hfit.
        assert (Hbody : Forall (fun job =>
                  snd (gpu_reservation_body max_gpus_per_node job) = None)
                  jobs1) by now apply Hdone.
        eapply Forall_impl; [exact Hbody|]. intros job Hj.
        now apply (gpu_reservation_body_raises_iff max_gpus_per_node job).
Qed.

Lemma pending_jobs_completes_iff_example :
  0 < 4
  /\ Forall (slots_in_float_range 4) [job_slots; job_gpus]
  /\ Forall (gpu_in_float_range 4) [job_slots; job_gpus]
  /\ Forall (slots_in_float_range 4) [job_slots; job_gpus_per_task_8]
  /\ Forall (gpu_in_float_range 4) [job_slots; job_gpus_per_task_8]
  /\ (exists returned,
        get_pending_jobs_info (Some 4) None None 4 [job_slots; job_gpus]
        = Ok returned)
  /\ get_pending_jobs_info (Some 4) None None 4
       [job_slots; job_gpus_per_task_8]
     = Raise ZeroDivisionError.
Proof.
  assert (H : 0 < 4) by lia.
  assert (Hs1 : Forall (slots_in_float_range 4) [job_slots; job_gpus])
    by (repeat constructor; simpl; lia).
  assert (Hg1 : Forall (gpu_in_float_range 4) [job_slots; job_gpus])
    by (repeat (constructor; [solve_gpu_in_float_range|]); constructor).
  assert (Hs2 : Forall (slots_in_float_range 4)
                  [job_slots; job_gpus_per_task_8])
    by (repeat constructor; simpl; lia).
  assert (Hg2 : Forall (gpu_in_float_range 4)
                  [job_slots; job_gpus_per_task_8])
    by (repeat (constructor; [solve_gpu_in_float_range|]); constructor).
  split; [exact H|]. split; [exact Hs1|]. split; [exact Hg1|].
  split; [exact Hs2|]. split; [exact Hg2|]. split.
  - apply (proj1 (pending_jobs_completes_iff 4 None None 4
                    [job_slots; job_gpus] H Hs1 (fun _ => Hg1))).
    split; [repeat constructor; discriminate|]. intros _.
    repeat constructor; intros g Hentry; vm_compute in Hentry; discriminate.
  - destruct (get_pending_jobs_info (Some 4) None None 4
                [job_slots; job_gpus_per_task_8]) as [e|returned] eqn:Hrun.
    + f_equal.
      exact (proj2 (pending_jobs_completes_iff 4 None None 4
                      [job_slots; job_gpus_per_task_8] H Hs2 (fun _ => Hg2))
               e Hrun).
    + vm_compute in Hrun. discriminate.
Defined.

(** X12.  A ceiling of zero and an empty list of reasons are read as
    absent ones by the whole function: with [max_slots_filter = 0] neither
    pass runs and no job is excluded for its slots, with
    [max_nodes_filter = 0] no job is excluded for its nodes, and with no
    other constraint every job comes back as reported. *)
Theorem zero_ceilings_are_absent (max_slots_filter max_nodes_filter : option Z)
    (filter_by_pending_reasons : option (list string))
    (max_gpus_per_node : Z) (pending_jobs : list SlurmJob) :
  get_pending_jobs_info (Some 0) max_nodes_filter filter_by_pending_reasons
    max_gpus_per_node pending_jobs
  = get_pending_jobs_info None max_nodes_filter filter_by_pending_reasons
      max_gpus_per_node pending_jobs
  /\ get_pending_jobs_info max_slots_filter (Some 0)
       filter_by_pending_reasons max_gpus_per_node pending_jobs
     = get_pending_jobs_info max_slots_filter None
         filter_by_pending_reasons max_gpus_per_node pending_jobs
  /\ get_pending_jobs_info max_slots_filter max_nodes_filter (Some [])
       max_gpus_per_node pending_jobs
     = get_pending_jobs_info max_slots_filter max_nodes_filter None
         max_gpus_per_node pending_jobs
  /\ get_pending_jobs_info (Some 0) (Some 0) (Some []) max_gpus_per_node
       pending_jobs
     = Ok pending_jobs.
Proof.
  assert (Hloop : forall ms mn rs ms' mn' rs' jobs acc,
            (forall job, job_is_kept ms mn rs job
                         = job_is_kept ms' mn' rs' job) ->
            filter_loop ms mn rs jobs acc = filter_loop ms' mn' rs' jobs acc).
  { intros ms mn rs ms' mn' rs' jobs acc Hk. revert acc.
    induction jobs as [|job rest IH]; intros acc; simpl; [reflexivity|].
    now rewrite Hk, IH. }
  repeat split.
  - unfold get_pending_jobs_info, recompute_required_nodes. simpl.
    f_equal. unfold filter_pending_jobs. simpl.
    destruct (_ || _); [|reflexivity]. now apply Hloop.
  - unfold get_pending_jobs_info.
    destruct (recompute_required_nodes _ _ _) as [jobs [e|]]; [reflexivity|].
    f_equal. unfold filter_pending_jobs. simpl.
    rewrite !orb_false_r.
    destruct (_ || _); [|reflexivity]. apply Hloop. intros job.
    unfold job_is_kept. reflexivity.
  - unfold get_pending_jobs_info.
    destruct (recompute_required_nodes _ _ _) as [jobs [e|]]; [reflexivity|].
    f_equal. unfold filter_pending_jobs. simpl.
    destruct (_ || _ || _); [|reflexivity]. now apply Hloop.
Qed.

(** * Further properties of the text functions *)

Lemma not_in_join_with (c sep : ascii) (pieces : list string) :
  c <> sep ->
  Forall (fun piece => c ∉ list_ascii_of_string piece) pieces ->
  c ∉ list_ascii_of_string (join_with sep pieces).
Proof.
  intros Hsep Hfree. induction Hfree as [|piece rest Hpiece Hrest IH].
  - apply not_elem_of_nil.
  - destruct rest as [|next rest]; [exact Hpiece|].
    change (join_with sep (piece :: next :: rest))
      with (piece ++ String sep (join_with sep (next :: rest)))%string.
    apply not_in_string_app. split; [exact Hpiece|].
    simpl. apply not_elem_of_cons. split; [exact Hsep|exact IH].
Qed.

Section TresMore.

Variable int_of_str : string -> option Z.

(** The loop only adds keys to the mapping it was given. *)
Lemma tres_loop_keeps_keys (pieces : list string)
    (tres_dict m : gmap string Z) (key : string) :
  tres_loop int_of_str pieces tres_dict = Ok m ->
  is_Some (tres_dict !! key) -> is_Some (m !! key).
Proof.
  revert tres_dict. induction pieces as [|tres rest IH];
    intros tres_dict; simpl.
  - now intros [= ->].
  - destruct (parse_tres int_of_str tres) as [e|[r n]]; [discriminate|].
    intros Hloop Hkey. apply (IH _ Hloop).
    destruct (decide (r = key)) as [->|Hne].
    + rewrite lookup_insert_eq. now eexists.
    + now rewrite lookup_insert_ne.
Qed.

(** X13.  ["N/A"] is the only text [transform_tres_to_dict] turns into
    the empty mapping: a result for any other text has a key, and the empty
    text is no request at all but a [ValueError]. *)
Theorem tres_empty_only_for_na (value : string) (m : gmap string Z) :
  transform_tres_to_dict int_of_str value = Ok m ->
  (m = ∅ <-> value = "N/A"%string)
  /\ value <> ""%string.
Proof.
  unfold transform_tres_to_dict.
  destruct (String.eqb_spec value "N/A") as [->|Hna].
  - intros [= <-]. split; [easy|discriminate].
  - intros Hloop. split.
    + split; [|contradiction]. intros ->. exfalso.
      pose proof (split_on_nonempty "," value) as Hne.
      destruct (split_on "," value) as [|tres rest]; [easy|].
      simpl in Hloop.
      destruct (parse_tres int_of_str tres) as [e|[r n]]; [discriminate|].
      pose proof (tres_loop_keeps_keys _ _ _ r Hloop) as Hkey.
      rewrite lookup_insert_eq, lookup_empty in Hkey.
      destruct Hkey as [? [=]]. now eexists.
    + intros ->. simpl in Hloop. discriminate.
Qed.

(** X14.  Writing requests as text and reading the text back gives the
    requests: for names and literals free of commas and colons, with
    literals [int] reads, [transform_tres_to_dict] maps the comma-separated
    [name:literal] text to the mapping of each name to its count. *)
Theorem tres_text_round_trip (entries : list (string * string * Z)) :
  entries <> [] ->
  Forall (fun entry =>
      let '(name, literal, n) := entry in
      (","%char ∉ list_ascii_of_string name)
      /\ (":"%char ∉ list_ascii_of_string name)
      /\ (","%char ∉ list_ascii_of_string literal)
      /\ (":"%char ∉ list_ascii_of_string literal)
      /\ int_of_str literal = Some n)
    entries ->
  transform_tres_to_dict int_of_str
    (tres_text (map (fun entry => (entry.1.1, entry.1.2)) entries))
  = Ok (spec_tres_mapping (map (fun entry => (entry.1.1, entry.2)) entries)).
Proof.
  intros Hne Hall.
  set (tokens := map tres_token
                   (map (fun entry : string * string * Z =>
                           (entry.1.1, entry.1.2)) entries)).
  assert (Hsplit : split_on "," (join_with "," tokens) = tokens).
  { apply split_on_join_with.
    - unfold tokens. destruct entries; [congruence|discriminate].
    - unfold tokens. rewrite !Forall_fmap.
      eapply Forall_impl; [exact Hall|].
      intros [[name literal] n] (Hn1 & _ & Hl1 & _). simpl.
      unfold tres_token. simpl.
      apply not_in_string_app. split; [exact Hn1|].
      simpl. apply not_elem_of_cons. split; [discriminate|exact Hl1]. }
  assert (Htok : Forall2 (fun tres entry =>
              spec_token int_of_str tres entry.1 entry.2) tokens
              (map (fun entry : string * string * Z =>
                      (entry.1.1, entry.2)) entries)).
  { unfold tokens. rewrite map_map.
    apply Forall2_fmap, Forall_Forall2_diag.
    eapply Forall_impl; [exact Hall|].
    intros [[name literal] n] (_ & Hn2 & _ & Hl2 & Hint). simpl.
    now exists literal. }
  unfold transform_tres_to_dict, tres_text. fold tokens.
  destruct (String.eqb_spec (join_with "," tokens) "N/A") as [Hna|_].
  - exfalso. rewrite Hna in Hsplit. simpl in Hsplit.
    rewrite <- Hsplit in Htok.
    inversion Htok as [|? [r n] ? ? Hspec _]; subst.
    apply parse_tres_token in Hspec. discriminate.
  - rewrite Hsplit, (tres_loop_tokens _ _ _ _ Htok). f_equal.
    apply foldl_insert_mapping.
Qed.

End TresMore.

Lemma tres_empty_only_for_na_example :
  transform_tres_to_dict decimal_int "gpu:12" = Ok {["gpu"%string := 12]}
  /\ ({["gpu"%string := 12]} = (∅ : gmap string Z)
      <-> "gpu:12"%string = "N/A"%string).
Proof.
  assert (H : transform_tres_to_dict decimal_int "gpu:12"
              = Ok {["gpu"%string := 12]}) by reflexivity.
  split; [exact H|].
  exact (proj1 (tres_empty_only_for_na decimal_int "gpu:12" _ H)).
Defined.

Lemma tres_text_round_trip_example :
  tres_text [("gpu", "12"); ("mic", "3")]%string = "gpu:12,mic:3"%string
  /\ transform_tres_to_dict decimal_int "gpu:12,mic:3"
     = Ok (spec_tres_mapping [("gpu", 12); ("mic", 3)]%string).
Proof.
  split; [reflexivity|].
  apply (tres_text_round_trip decimal_int
           [("gpu", "12", 12); ("mic", "3", 3)]%string); [discriminate|].
  repeat constructor;
    try (simpl; intros Hin;
         repeat (apply elem_of_cons in Hin as [Hin|Hin]; [discriminate|]);
         now apply elem_of_nil in Hin).
Defined.

(** * [SlurmJob.reformat_table] *)

Section TableProperties.

Variable splitlines : string -> list string.
Variable wrap : string -> Z -> list string.

(** The loop over the indices rewrites the lines from the first index on,
    one after the other, and no subscript is out of range. *)
Lemma reformat_lines_from (done todo : list string) :
  reformat_lines wrap (seq (List.length done) (List.length todo))
    (done ++ todo)
  = Some (done ++ map (reformat_line wrap) todo).
Proof.
  revert done. induction todo as [|line rest IH]; intros done; simpl.
  - reflexivity.
  - rewrite list_lookup_middle by reflexivity.
    rewrite insert_app_r_alt by lia.
    replace (List.length done - List.length done)%nat with 0%nat by lia.
    simpl.
    specialize (IH (done ++ [reformat_line wrap line])).
    rewrite length_app in IH. simpl in IH.
    replace (List.length done + 1)%nat with (S (List.length done)) in IH
      by lia.
    rewrite <- !app_assoc in IH. simpl in IH. exact IH.
Qed.

Lemma reformat_table_lines (table : string) :
  reformat_table splitlines wrap table
  = Some (join_with "010"
            (map (reformat_line wrap) (splitlines table))).
Proof.
  unfold reformat_table.
  pose proof (reformat_lines_from [] (splitlines table)) as Hloop.
  simpl in Hloop. now rewrite Hloop.
Qed.

(** X15.  [reformat_table] never fails on a subscript and rewrites each
    line of the table once, in place and in order.  When the table has a
    line, every line wraps to at least one chunk and no chunk holds a bar
    or a line feed, the compressed table can be cut back: its lines, cut at
    the bars, are the chunks of the lines of the table. *)
Theorem reformat_table_rows (table : string) :
  let rows := map (fun line => wrap line SQUEUE_FIELD_SIZE)
                (splitlines table) in
  reformat_table splitlines wrap table
  = Some (join_with "010" (map (join_with "|") rows))
  /\ (rows <> [] ->
      Forall (fun chunks =>
          chunks <> []
          /\ Forall (fun chunk =>
               ("|"%char ∉ list_ascii_of_string chunk)
               /\ ("010"%char ∉ list_ascii_of_string chunk)) chunks)
        rows ->
      exists text,
        reformat_table splitlines wrap table = Some text
        /\ map (split_on "|") (split_on "010" text) = rows).
Proof.
  intros rows.
  assert (Heq : reformat_table splitlines wrap table
                = Some (join_with "010" (map (join_with "|") rows))).
  { rewrite reformat_table_lines. unfold rows. now rewrite map_map. }
  split; [exact Heq|].
  intros Hne Hrows. eexists. split; [exact Heq|].
  rewrite split_on_join_with.
  - rewrite map_map. rewrite <- (map_id rows) at 2. apply map_ext_Forall.
    eapply Forall_impl; [exact Hrows|]. intros chunks [Hc Hfree]. simpl.
    apply split_on_join_with; [exact Hc|].
    eapply Forall_impl; [exact Hfree|]. now intros chunk [? _].
  - destruct rows; [congruence|discriminate].
  - rewrite Forall_fmap. eapply Forall_impl; [exact Hrows|].
    intros chunks [_ Hfree]. simpl. apply not_in_join_with; [discriminate|].
    eapply Forall_impl; [exact Hfree|]. now intros chunk [_ ?].
Qed.

End TableProperties.

Lemma reformat_table_rows_example :
  reformat_table lines_at_line_feeds fields_of_width squeue_table
  = Some (String.append "JOBID|ST" (String "010" "72|PD"))
  /\ exists text,
       reformat_table lines_at_line_feeds fields_of_width squeue_table
       = Some text
       /\ map (split_on "|") (split_on "010" text)
          = [["JOBID"; "ST"]; ["72"; "PD"]]%string.
Proof.
  split; [vm_compute; reflexivity|].
  assert (Hrows : map (fun line => fields_of_width line SQUEUE_FIELD_SIZE)
                    (lines_at_line_feeds squeue_table)
                  = [["JOBID"; "ST"]; ["72"; "PD"]]%string)
    by (vm_compute; reflexivity).
  pose proof (proj2 (reformat_table_rows lines_at_line_feeds fields_of_width
                       squeue_table)) as Hcut.
  cbv zeta in Hcut. rewrite Hrows in Hcut.
  apply Hcut; [discriminate|].
  repeat constructor; try discriminate;
    simpl; intros Hin;
    repeat (apply elem_of_cons in Hin as [Hin|Hin]; [discriminate|]);
    now apply elem_of_nil in Hin.
Defined.
